(** * Ocean-to-Database: nearest-match aligner and reconciliation driver

    A shallow embedding of [align_arrays.py], of the driver class of
    [external_data_to_database.py] and of the helpers of
    [generate_sql_query.py] it calls, followed by the properties the
    specification states about them.

    Modelling conventions.
    - The aligner is generic in the element type of its arrays; numpy picks
      the subtraction and the absolute value by the dtype.  On numeric arrays
      ([int64]) both wrap around in 64 bits, and the embedding wraps with
      them.
    - A time stamp of the driver is an integer count of seconds since the
      epoch ([Z]); this is the resolution at which the driver writes its keys
      ([strftime('%Y-%m-%d %H:%M:%S')]).  numpy holds it as a 64-bit count of
      nanoseconds ([datetime64]); the time stamps of a pass are less than
      2^63 ns (292 years) from each other, where their differences are the
      exact ones of [Z].
    - A Python exception is a value [Raise e] of the type [result].
    - Sensor values are binary64 floats ([PrimFloat.float]). *)

From Stdlib Require Import ZArith Floats.PrimFloat.
From stdpp Require Import gmap strings list sorting pretty.
From Equations Require Import Equations.

Local Open Scope Z_scope.

(** ** Exceptions *)

Inductive exn : Type :=
| AssertionError
| IndexError
| ValueError
| KeyError (key : string)
| UndefinedTable (table : string)
| NonScalarLookup.

Inductive result (A : Type) : Type :=
| OK (a : A)
| Raise (e : exn).
Arguments OK {A} a.
Arguments Raise {A} e.

Definition rbind {A B} (r : result A) (k : A → result B) : result B :=
  match r with
  | OK a => k a
  | Raise e => Raise e
  end.

Notation "x ←ᵣ r ; k" := (rbind r (λ x, k))
  (at level 20, r at level 100, k at level 200, right associativity,
   format "x  ←ᵣ  r ;  '/' k").

(** ** numpy values used by the aligner *)

(** The argument of [find_closest] is either a numpy array or some other
    array-like object (a Python list); [type(x) == np.ndarray] tells them
    apart. *)
Inductive array_like : Type :=
| NdArray (elems : list Z)
| PyList (elems : list Z).

Definition elements_of (a : array_like) : list Z :=
  match a with NdArray l | PyList l => l end.

Definition is_ndarray (a : array_like) : bool :=
  match a with NdArray _ => true | PyList _ => false end.

(** [np.searchsorted(a, key, side='left')] for one key: numpy's binary search
    between [lo] and [hi], which moves [lo] past every probed element that is
    smaller than the key. *)
Equations? binsearch_left (a : list Z) (key : Z) (lo hi : nat) : nat
  by wf (hi - lo)%nat lt :=
binsearch_left a key lo hi with decide (lo < hi)%nat := {
  | left _ =>
      let mid := (lo + (hi - lo) / 2)%nat in
      if bool_decide (a !!! mid < key)
      then binsearch_left a key (S mid) hi
      else binsearch_left a key lo mid
  | right _ => lo }.
Proof.
  all: assert (Hhalf : ((hi - lo) / 2 < hi - lo)%nat)
    by (apply Nat.div_lt; lia).
  all: change ((hi - lo) / 2)%nat with (Nat.divmod (hi - lo) 1 0 1).1 in Hhalf.
  all: subst mid; lia.
Qed.

Definition searchsorted (a : list Z) (key : Z) : nat :=
  binsearch_left a key 0 (length a).

(** Python slice [l[lo:hi]] for [0 <= lo <= hi]; it stops at the end of the
    list. *)
Definition slice {A} (l : list A) (lo hi : nat) : list A :=
  take (hi - lo) (drop lo l).

(** [np.argmin]: position of the first minimum. *)
Fixpoint argmin_from (best_i : nat) (best : Z) (i : nat) (l : list Z) : nat :=
  match l with
  | [] => best_i
  | x :: l' =>
      if bool_decide (x < best) then argmin_from i x (S i) l'
      else argmin_from best_i best (S i) l'
  end.

Definition argmin (l : list Z) : result nat :=
  match l with
  | [] => Raise ValueError
  | x :: l' => OK (argmin_from 0 x 1 l')
  end.

(** [a[i]] on a numpy array, for [i >= 0]. *)
Definition getitem {A} (l : list A) (i : nat) : result A :=
  match l !! i with
  | Some x => OK x
  | None => Raise IndexError
  end.

(** The element types at which the aligner is used.  The elements of an
    [int64] array, its pivots and the results of its arithmetic are the
    integers from -2^63 to 2^63 - 1; the elements of a [datetime64] array are
    the time stamps of the driver. *)
Inductive dtype : Type :=
| int64
| datetime64.

(** The 64-bit two's complement value of an integer. *)
Definition wrap64 (z : Z) : Z := (z + 2 ^ 63) `mod` 2 ^ 64 - 2 ^ 63.

(** [x - y] and [abs(x)] as numpy computes them for the dtype: in [int64] the
    difference wraps around and the absolute value of -2^63 is -2^63 itself;
    the differences of the time stamps of a pass are exact. *)
Definition subtract (dt : dtype) (x y : Z) : Z :=
  match dt with
  | int64 => wrap64 (x - y)
  | datetime64 => x - y
  end.

Definition absolute (dt : dtype) (x : Z) : Z :=
  match dt with
  | int64 => wrap64 (Z.abs x)
  | datetime64 => Z.abs x
  end.

(** ** align_arrays.py

    [dt] is the dtype of the search array, which is that of the pivots. *)

Definition find_closest (dt : dtype) (search_array : array_like) (pivot : Z)
  : result Z :=
  if is_ndarray search_array then
    let a := elements_of search_array in
    let index := searchsorted a pivot in
    if bool_decide (index ≠ 0%nat) then
      let values := slice a (index - 1) (index + 1) in
      let distances := (λ v, absolute dt (subtract dt v pivot)) <$> values in
      min_index ←ᵣ argmin distances;
      getitem values min_index
    else getitem a index
  else Raise AssertionError.

Definition closest_within_distance (dt : dtype)
    (search_array : array_like) (pivot max_dist : Z) : result (option Z) :=
  nearest_value ←ᵣ find_closest dt search_array pivot;
  OK (if bool_decide (absolute dt (subtract dt nearest_value pivot) ≤ max_dist)
      then Some nearest_value else None).

(** [find_closest(search_array, p) if max_dist is None else
    closest_within_distance(search_array, p, max_dist)]. *)
Definition align_entry (dt : dtype) (search_array : array_like)
    (max_dist : option Z) (p : Z) : result (option Z) :=
  match max_dist with
  | None => x ←ᵣ find_closest dt search_array p; OK (Some x)
  | Some d => closest_within_distance dt search_array p d
  end.

(** The loop [for i, p in enumerate(pivot_array): output[i] = ...] over the
    preallocated [output]. *)
Fixpoint align_loop (dt : dtype) (search_array : array_like)
    (max_dist : option Z) (i : nat) (pivots : list Z)
    (output : list (option Z)) : result (list (option Z)) :=
  match pivots with
  | [] => OK output
  | p :: pivots' =>
      v ←ᵣ align_entry dt search_array max_dist p;
      align_loop dt search_array max_dist (S i) pivots' (<[i := v]> output)
  end.

Definition align_arrays (dt : dtype) (search_array pivot_array : array_like)
    (max_dist : option Z) : result (list (option Z)) :=
  if is_ndarray pivot_array then
    let pivots := elements_of pivot_array in
    let output := replicate (length pivots) None in
    let search_array := NdArray (merge_sort Z.le (elements_of search_array)) in
    align_loop dt search_array max_dist 0 pivots output
  else Raise AssertionError.

(** The entry that [align_arrays] computes for one pivot, on the sorted copy
    of the search array ([None] also stands for a failed lookup). *)
Definition aligned_entry (dt : dtype) (search_array : list Z)
    (max_dist : option Z) (p : Z) : option Z :=
  match align_entry dt (NdArray (merge_sort Z.le search_array)) max_dist p with
  | OK r => r
  | Raise _ => None
  end.

(** The distance of [x] to the pivot does not overflow the 64 bits in which
    numpy computes it: it is less than 2^63, in nanoseconds for time
    stamps. *)
Definition no_overflow (dt : dtype) (pivot x : Z) : Prop :=
  match dt with
  | int64 => Z.abs (x - pivot) < 2 ^ 63
  | datetime64 => Z.abs (x - pivot) * 10 ^ 9 < 2 ^ 63
  end.

(** ** Time stamps and their formats *)

Definition minute : Z := 60.
Definition day : Z := 86400.

(** [np.timedelta64(n, 'm')]. *)
Definition timedelta64_m (n : Z) : Z := n * minute.

(** [t.strftime('%Y-%m-%d')], [t.strftime('%Y-%m-%d %H:%M')] and
    [t.strftime('%Y-%m-%d %H:%M:%S')], each read back as a time stamp: the
    first two drop the time of day and the seconds. *)
Definition strftime_date (t : Z) : Z := t `div` day * day.
Definition strftime_minute (t : Z) : Z := t `div` minute * minute.
Definition strftime_second (t : Z) : Z := t.

(** ** The backing store

    [datasetinfo] answers the query of [datasetinfo_query_from_datetime]
    (station, first day, last day) with its rows (systemnum, startdate), in
    the order of the query.  [eng_tables] holds the [hdrtime] column of every
    engineering table that exists.  The statements that change the store are
    recorded, in order, in a log of [db_event]s.  The cursor of the driver
    is that of its connection: the store stands for both. *)

Record Database : Type := {
  datasetinfo : string → Z → Z → list (Z * string);
  eng_tables : gmap string (list Z);
}.

Record sql_update : Type := UpdateSql {
  upd_table : string;
  upd_column : string;
}.

Inductive db_event : Type :=
| Execute (stmt : sql_update) (value : float) (hdrtime : Z)
| Commit.

(** Driver code runs against the log and may raise; what was executed before
    an exception stays executed. *)
Definition io (A : Type) : Type := list db_event → result A * list db_event.

Definition io_ret {A} (a : A) : io A := λ log, (OK a, log).

Definition io_bind {A B} (m : io A) (k : A → io B) : io B :=
  λ log, match m log with
         | (OK a, log') => k a log'
         | (Raise e, log') => (Raise e, log')
         end.

Definition lift {A} (r : result A) : io A := λ log, (r, log).

Definition emit (ev : db_event) : io unit := λ log, (OK tt, log ++ [ev]).

Notation "x ←ᵢ m ; k" := (io_bind m (λ x, k))
  (at level 20, m at level 100, k at level 200, right associativity,
   format "x  ←ᵢ  m ;  '/' k").

(** [for x in l: body(x)]. *)
Fixpoint for_each {A} (l : list A) (body : A → io unit) : io unit :=
  match l with
  | [] => io_ret tt
  | x :: l' => io_bind (body x) (λ _, for_each l' body)
  end.

(** A list comprehension whose element expression may raise. *)
Fixpoint comprehension {A B} (f : A → result B) (l : list A) : result (list B) :=
  match l with
  | [] => OK []
  | x :: l' => y ←ᵣ f x; ys ←ᵣ comprehension f l'; OK (y :: ys)
  end.

(** ** pandas values used by the driver

    A frame has a [datetime] column, which is also its index
    ([df.index = df['datetime']] in the parser), and named float columns. *)

Record row : Type := Row {
  datetime : Z;
  cell : string → float;
}.

Record DataFrame : Type := Frame {
  df_columns : list string;
  df_rows : list row;
}.

(** [data[(data[p] > 0)]]. *)
Definition positive_rows (data : DataFrame) (p : string) : result DataFrame :=
  if bool_decide (p ∈ df_columns data) then
    OK (Frame (df_columns data)
              (filter (λ r, PrimFloat.ltb 0 (cell r p) = true) (df_rows data)))
  else Raise (KeyError p).

(** [data[p][dtime]], a lookup by index label; a label that occurs on several
    rows selects a Series, which is not a float payload, and a label that is
    not in the index ([None] is never one) is a [KeyError]. *)
Definition loc (data : DataFrame) (p : string) (dtime : option Z) : result float :=
  if bool_decide (p ∈ df_columns data) then
    match dtime with
    | None => Raise (KeyError "None")
    | Some t =>
        match filter (λ r, datetime r = t) (df_rows data) with
        | [] => Raise (KeyError "datetime")
        | [r] => OK (cell r p)
        | _ => Raise NonScalarLookup
        end
    end
  else Raise (KeyError p).

(** Truth value of an entry of the alignment result in [if atime]: [None] is
    false, and so is the zero time stamp, like every numpy scalar equal to
    zero. *)
Definition truthy (atime : option Z) : bool :=
  match atime with
  | None => false
  | Some t => bool_decide (t ≠ 0)
  end.

(** ** generate_sql_query.py *)

(** [s.lower()].  A character of a string of the embedding is a code point
    below 256: its capital letters are A to Z and the code points 192 to 222
    but 215 (the multiplication sign), and the small letter of each is 32
    further on. *)
Definition lower_char (c : Ascii.ascii) : Ascii.ascii :=
  let n := Ascii.nat_of_ascii c in
  if (((65 <=? n) && (n <=? 90))
      || ((192 <=? n) && (n <=? 222) && negb (n =? 215)))%nat
  then Ascii.ascii_of_nat (n + 32) else c.

Fixpoint lower (s : string) : string :=
  match s with
  | EmptyString => EmptyString
  | String c s' => String (lower_char c) (lower s')
  end.

(** [str(n)] and [s * k]. *)
Definition str (n : Z) : string := pretty n.

Definition str_mul (s : string) (k : Z) : string :=
  String.concat "" (replicate (Z.to_nat k) s).

Definition generate_engineering_table_name
    (station_name : string) (system_num : Z) (start_date : string) : string :=
  let system_num :=
    str_mul "0" (4 - Z.of_nat (String.length (str system_num))) +:+ str system_num in
  "eng_" +:+ system_num +:+ "_" +:+ lower station_name +:+ "_" +:+ start_date.

(** The query strings, as data: the names and the bounds that are written
    into them. *)
Record datasetinfo_query : Type := DatasetinfoQuery {
  dq_station : string;
  dq_start : Z;
  dq_end : Z;
}.

Record hdrtime_query : Type := HdrtimeQuery {
  hq_table : string;
  hq_start : Z;
  hq_end : Z;
}.

Definition datasetinfo_query_from_datetime
    (station_name : string) (start_date end_date : Z) : datasetinfo_query :=
  DatasetinfoQuery station_name (strftime_date start_date) (strftime_date end_date).

Definition generate_hdrtime_query (engineering_table_name : string)
    (query_start_date query_end_date : Z) : hdrtime_query :=
  HdrtimeQuery engineering_table_name
    (strftime_date query_start_date) (strftime_minute query_end_date).

Definition generate_update_sql (engineering_table_name column_name : string)
  : result sql_update :=
  if bool_decide (column_name = "sst" ∨ column_name = "sal")
  then OK (UpdateSql engineering_table_name column_name)
  else Raise AssertionError.

(** [cursor.execute(sql_update_str, (value, hdrtime))] for an update
    statement: the statement is executed, unless its table does not exist,
    which makes [execute] raise, as for the query of the header times.  The
    other ways in which the database can reject a statement (a lost
    connection, a column that the table does not have) are not described. *)
Definition execute (cursor : Database) (sql_update_str : sql_update)
    (value : float) (hdrtime : Z) : io unit :=
  if bool_decide (is_Some (eng_tables cursor !! upd_table sql_update_str))
  then emit (Execute sql_update_str value hdrtime)
  else lift (Raise (UndefinedTable (upd_table sql_update_str))).

(** [for dtime, value in zip(dtimes, param_data): cursor.execute(...)]. *)
Definition run_update_sql (cursor : Database) (sql_update_str : sql_update)
    (dtimes : list Z) (param_data : list float) : io unit :=
  for_each (zip dtimes param_data)
    (λ '(dtime, value),
       execute cursor sql_update_str value (strftime_second dtime)).

(** ** external_data_to_database.py *)

Definition parameter_mapping : gmap string string :=
  {[ "sst" := "sst"; "sss" := "sal"; "sal" := "sal" ]}.

Definition inverse_parameter_mapping : gmap string string :=
  {[ "sal" := "sss"; "sst" := "sst" ]}.

(** [parameter_mapping[p]]. *)
Definition mapped_parameter (p : string) : result string :=
  match parameter_mapping !! p with
  | Some c => OK c
  | None => Raise (KeyError p)
  end.

Record DatabaseUploader : Type := {
  conn : Database;
  testing : bool;
}.

Record Metadata : Type := {
  md_station : string;
  md_parameter : list string;
  md_date_range : Z * Z;
  md_engineering_tables : list string;
}.

Definition _get_date_range (data : DataFrame) : result (Z * Z) :=
  match df_rows data with
  | [] => Raise IndexError
  | first :: _ =>
      match last (df_rows data) with
      | Some final => OK (datetime first, datetime final + timedelta64_m 10)
      | None => Raise IndexError
      end
  end.

(** The existence query on one table name. *)
Definition table_exists (self : DatabaseUploader) (eng_table : string) : bool :=
  bool_decide (is_Some (eng_tables (conn self) !! eng_table)).

(** [list.remove(x)]: drops the first element equal to [x]. *)
Fixpoint list_remove_first (x : string) (l : list string) : list string :=
  match l with
  | [] => []
  | y :: l' => if decide (x = y) then l' else y :: list_remove_first x l'
  end.

(** The loop of [_test_for_eng_table_existence]: the [for] statement reads
    position [i] of the list that its body shortens. *)
Equations? existence_loop (self : DatabaseUploader) (i : nat)
    (engineering_tables : list string) : list string
  by wf (length engineering_tables - i)%nat lt :=
existence_loop self i engineering_tables with Logic.inspect (engineering_tables !! i) := {
  | exist _ (Some eng_table) Hi =>
      if table_exists self eng_table
      then existence_loop self (S i) engineering_tables
      else existence_loop self (S i) (list_remove_first eng_table engineering_tables)
  | exist _ None _ => engineering_tables }.
Proof.
  - apply lookup_lt_Some in Hi. lia.
  - assert (Hlen : ∀ x l, x ∈ l →
                     length (list_remove_first x l) = pred (length l)).
    { clear. intros x l. induction l as [|y l IH]; intros Hin;
        [by apply elem_of_nil in Hin|].
      cbn. case_decide as Hxy; [done|].
      apply elem_of_cons in Hin as [?|Hin]; [done|].
      cbn. rewrite IH by done. destruct l; [by apply elem_of_nil in Hin|done]. }
    rewrite Hlen by (by eapply list_elem_of_lookup_2).
    apply lookup_lt_Some in Hi. lia.
Qed.

Definition _test_for_eng_table_existence (self : DatabaseUploader)
    (engineering_tables : list string) : list string :=
  existence_loop self 0 engineering_tables.

Definition _get_engineering_table_names (self : DatabaseUploader)
    (station_name : string) (date_range : Z * Z) : list string :=
  let system_number_sql :=
    datasetinfo_query_from_datetime station_name date_range.1 date_range.2 in
  let query_results :=
    datasetinfo (conn self) (dq_station system_number_sql)
      (dq_start system_number_sql) (dq_end system_number_sql) in
  let engineering_tables :=
    (λ '(system_num, start_date),
       generate_engineering_table_name station_name system_num start_date)
    <$> query_results in
  _test_for_eng_table_existence self engineering_tables.

(** [self.cur.execute(hdrtime_query)] and [self.cur.fetchall()]: the
    [hdrtime]s of the table between the two bounds of the query, in ascending
    order; a table that does not exist makes [execute] raise. *)
Definition fetch_hdrtimes (self : DatabaseUploader) (q : hdrtime_query)
  : result (list Z) :=
  match eng_tables (conn self) !! hq_table q with
  | None => Raise (UndefinedTable (hq_table q))
  | Some hdrtime_column =>
      OK (merge_sort Z.le
            (filter (λ t, hq_start q ≤ t ≤ hq_end q) hdrtime_column))
  end.

Definition _get_hdrtimes_and_aligned_times (self : DatabaseUploader)
    (eng_table : string) (date_range : Z * Z) (data : DataFrame)
  : result (list Z * list (option Z)) :=
  let hdrtime_query :=
    generate_hdrtime_query eng_table date_range.1 date_range.2 in
  hdrtimes ←ᵣ fetch_hdrtimes self hdrtime_query;
  let adjusted_hdrtimes := (λ t, t + timedelta64_m 17) <$> hdrtimes in
  aligned_dates ←ᵣ align_arrays datetime64
                                (NdArray (datetime <$> df_rows data))
                                (NdArray adjusted_hdrtimes)
                                (Some (timedelta64_m 20));
  OK (hdrtimes, aligned_dates).

(** The body of the two loops of [update_table], for one table and one
    parameter. *)
Definition update_unit (self : DatabaseUploader) (data : DataFrame)
    (date_range : Z * Z) (eng_table p : string) : io unit :=
  sub_data ←ᵢ lift (positive_rows data p) ;
  ha ←ᵢ lift (_get_hdrtimes_and_aligned_times self eng_table date_range sub_data) ;
  let '(hdrtimes, aligned_dates) := ha in
  let hdrtimes_to_update :=
    fst <$> filter (λ ha, truthy ha.2 = true) (zip hdrtimes aligned_dates) in
  param_data_to_update ←ᵢ
    lift (comprehension (loc sub_data p)
            (filter (λ dtime, truthy dtime = true) aligned_dates)) ;
  column ←ᵢ lift (mapped_parameter p) ;
  update_sql ←ᵢ lift (generate_update_sql eng_table column) ;
  io_bind (run_update_sql (conn self) update_sql
             hdrtimes_to_update param_data_to_update)
    (λ _, emit Commit).

Definition update_table (self : DatabaseUploader) (data : DataFrame)
    (station_name : string) (parameters : list string) : io Metadata :=
  date_range ←ᵢ lift (_get_date_range data) ;
  let engineering_tables := _get_engineering_table_names self station_name date_range in
  io_bind
    (for_each engineering_tables (λ eng_table,
       for_each parameters (λ p,
         update_unit self data date_range eng_table p)))
    (λ _,
       mapped ←ᵢ lift (comprehension mapped_parameter parameters) ;
       io_ret {| md_station := station_name;
                 md_parameter := mapped;
                 md_date_range := date_range;
                 md_engineering_tables := engineering_tables |}).

(** What it means for the event [ev] to be the update of the pair [ha] of a
    header time and its aligned sensor time: its key is the header time and
    its value that of the sensor row with the aligned time. *)
Definition update_for (stmt : sql_update) (sub_data : DataFrame) (p : string)
    (ha : Z * option Z) (ev : db_event) : Prop :=
  ∃ r, ha.2 = Some (datetime r) ∧ r ∈ df_rows sub_data
       ∧ ev = Execute stmt (cell r p) ha.1.

(** ** Scenarios

    One station, [Papa], whose deployment 12 starts on 1970-01-01, after
    deployment 11; times are seconds after 1970-01-01 00:00:00.  The frames
    have a column [sst], and [sss] where said. *)

Definition cells (sst sss : float) : string → float :=
  λ q, if decide (q = "sst") then sst else sss.

Definition one_deployment : string → Z → Z → list (Z * string) :=
  λ _ _ _, [(12, "19700101")].

Definition two_deployments : string → Z → Z → list (Z * string) :=
  λ _ _ _, [(11, "19691201"); (12, "19700101")].

(** Header times 0 s and 60 s in the one table. *)
Definition store_two_headers : Database :=
  {| datasetinfo := one_deployment;
     eng_tables := {[ "eng_0012_papa_19700101" := [0; 60] ]} |}.

(** One header time, 0 s. *)
Definition store_one_header : Database :=
  {| datasetinfo := one_deployment;
     eng_tables := {[ "eng_0012_papa_19700101" := [0] ]} |}.

(** One header time, 60 s. *)
Definition store_header_60 : Database :=
  {| datasetinfo := one_deployment;
     eng_tables := {[ "eng_0012_papa_19700101" := [60] ]} |}.

(** Two deployments resolved, neither table in the store. *)
Definition store_no_tables : Database :=
  {| datasetinfo := two_deployments; eng_tables := ∅ |}.

(** One reading, 5.5 at 1020 s (17 minutes). *)
Definition frame_one_reading : DataFrame :=
  Frame ["sst"] [Row 1020 (cells 5.5 0)].

(** One reading, 5.5 at the zero time stamp. *)
Definition frame_reading_at_zero : DataFrame :=
  Frame ["sst"] [Row 0 (cells 5.5 0)].

(** A reading of -1 at 1020 s and one of 5.5 at 100000 s. *)
Definition frame_invalid_reading : DataFrame :=
  Frame ["sst"] [Row 1020 (cells (-1) 0); Row 100000 (cells 5.5 0)].

(** One row at 1020 s: [sst] is -1, [sss] is 33.5. *)
Definition frame_no_valid_sst : DataFrame :=
  Frame ["sst"; "sss"] [Row 1020 (cells (-1) 33.5)].

(** ** Notions used to state properties of the log and of table names *)

Definition is_commit (ev : db_event) : bool :=
  match ev with Commit => true | Execute _ _ _ => false end.

(** The number of commits in a stretch of the log. *)
Definition commits (events : list db_event) : nat :=
  length (filter (λ ev, is_commit ev = true) events).

(** Reading a string of decimal digits back as a number (a character that is
    not a digit counts as 0); the inverse of the zero-padded system number of
    a table name. *)
Definition digit_value (c : Ascii.ascii) : Z :=
  let n := Z.of_nat (Ascii.nat_of_ascii c) in
  if bool_decide (48 ≤ n ≤ 57) then n - 48 else 0.

Fixpoint read_decimal_from (acc : Z) (s : string) : Z :=
  match s with
  | EmptyString => acc
  | String c s' => read_decimal_from (10 * acc + digit_value c) s'
  end.

Definition read_decimal (s : string) : Z := read_decimal_from 0 s.

(** The system-number field of a table name: the four characters after
    [eng_]. *)
Definition system_field (table_name : string) : string :=
  String.substring 4 4 table_name.

(** What the unit of a table and a parameter may write: a pair of a header
    time of the table inside the query window and a strictly positive value of
    a sensor row that is at most 20 minutes from the header time moved by 17
    minutes. *)
Definition close_positive_match (self : DatabaseUploader) (data : DataFrame)
    (date_range : Z * Z) (parameters : list string) (ev : db_event) : Prop :=
  match ev with
  | Commit => True
  | Execute stmt v h =>
      ∃ p r hdrtime_column,
        p ∈ parameters
        ∧ parameter_mapping !! p = Some (upd_column stmt)
        ∧ eng_tables (conn self) !! upd_table stmt = Some hdrtime_column
        ∧ h ∈ hdrtime_column
        ∧ strftime_date date_range.1 ≤ h ≤ strftime_minute date_range.2
        ∧ r ∈ df_rows data
        ∧ v = cell r p
        ∧ PrimFloat.ltb 0 v = true
        ∧ Z.abs (datetime r - (h + timedelta64_m 17)) ≤ timedelta64_m 20
  end.

(** ** Properties of the aligner *)

Section aligner_facts.
Implicit Types (dt : dtype) (a l : list Z) (key pivot x y : Z) (i j lo hi : nat).

(** Wrapping leaves the 64-bit integers as they are, and it commutes with
    negation up to the sign of -2^63. *)
Lemma wrap64_small z : - 2 ^ 63 ≤ z < 2 ^ 63 → wrap64 z = z.
Proof.
  intros Hz. unfold wrap64.
  rewrite Z.mod_small by lia. lia.
Qed.

Lemma wrap64_range z : - 2 ^ 63 ≤ wrap64 z < 2 ^ 63.
Proof.
  unfold wrap64. pose proof (Z.mod_pos_bound (z + 2 ^ 63) (2 ^ 64)). lia.
Qed.

Lemma wrap64_opp z : Z.abs (wrap64 (- z)) = Z.abs (wrap64 z).
Proof.
  unfold wrap64.
  change (2 ^ 64) with 18446744073709551616.
  change (2 ^ 63) with 9223372036854775808.
  Z.div_mod_to_equations. lia.
Qed.

(** Without overflow the distance that numpy computes is the distance. *)
Lemma distance_exact dt pivot x :
  no_overflow dt pivot x → absolute dt (subtract dt x pivot) = Z.abs (x - pivot).
Proof.
  destruct dt; cbn; [|done]. intros Hx.
  rewrite (wrap64_small (x - pivot)) by lia.
  apply wrap64_small. lia.
Qed.

(** Two elements at the same distance from the pivot get the same computed
    distance, overflow or not. *)
Lemma distance_tie dt pivot x y :
  Z.abs (x - pivot) = Z.abs (y - pivot) →
  absolute dt (subtract dt x pivot) = absolute dt (subtract dt y pivot).
Proof.
  destruct dt; cbn; [|done]. intros Htie. f_equal.
  destruct (decide (x - pivot = y - pivot)) as [->|Hne]; [done|].
  replace (x - pivot) with (- (y - pivot)) by lia.
  apply wrap64_opp.
Qed.

Lemma Sorted_lookup_le a i j x y :
  Sorted Z.le a → (i ≤ j)%nat → a !! i = Some x → a !! j = Some y → x ≤ y.
Proof.
  intros Hs%Sorted_StronglySorted; [|apply _].
  revert i j x y. induction Hs as [|z a Hs IH Hall]; intros i j x y Hij Hi Hj.
  - by rewrite lookup_nil in Hi.
  - rewrite Forall_forall in Hall.
    destruct i as [|i], j as [|j]; cbn in Hi, Hj.
    + assert (x = y) by congruence. lia.
    + injection Hi as <-. apply Hall. by eapply list_elem_of_lookup_2.
    + lia.
    + apply (IH i j); [lia|done..].
Qed.

(** The search stays between its bounds, sorted input or not. *)
Lemma binsearch_left_range a key lo hi :
  (lo ≤ hi)%nat →
  (lo ≤ binsearch_left a key lo hi ≤ hi)%nat.
Proof.
  funelim (binsearch_left a key lo hi); intros Hle; [|lia].
  clear Heqcall.
  assert ((hi - lo) / 2 < hi - lo)%nat by (apply Nat.div_lt; lia).
  case_bool_decide.
  - match goal with IH : _ → (S _ ≤ _ ≤ _)%nat |- _ => specialize (IH ltac:(lia)) end.
    lia.
  - match goal with IH : _ → (lo ≤ binsearch_left _ _ lo _ ≤ _)%nat |- _ =>
      specialize (IH ltac:(lia)) end.
    lia.
Qed.

(** On a sorted array the search returns the left insertion point: every
    element before it is smaller than the key, every element from it on is
    not. *)
Lemma binsearch_left_sorted a key lo hi :
  Sorted Z.le a →
  (lo ≤ hi ≤ length a)%nat →
  (∀ i x, (i < lo)%nat → a !! i = Some x → x < key) →
  (∀ i x, (hi ≤ i)%nat → a !! i = Some x → key ≤ x) →
  (∀ i x, (i < binsearch_left a key lo hi)%nat → a !! i = Some x → x < key) ∧
  (∀ i x, (binsearch_left a key lo hi ≤ i)%nat → a !! i = Some x → key ≤ x).
Proof.
  funelim (binsearch_left a key lo hi); intros Hs Hb Hlo Hhi;
    [clear Heqcall
    |split; intros i x Hi Hx; [by apply (Hlo i x)|apply (Hhi i x); [lia|done]]].
  assert (Hhalf : ((hi - lo) / 2 < hi - lo)%nat) by (apply Nat.div_lt; lia).
  set (mid := (lo + (hi - lo) / 2)%nat) in *.
  destruct (lookup_lt_is_Some_2 a mid) as [m Hm]; [lia|].
  rewrite (list_lookup_total_correct _ _ _ Hm).
  case_bool_decide as Hcmp.
  - match goal with IH : Sorted _ _ → (S mid ≤ _ ≤ _)%nat → _ |- _ =>
      apply IH; [done|lia| |done] end.
    intros i x Hi Hx.
    pose proof (Sorted_lookup_le a i mid x m Hs ltac:(lia) Hx Hm). lia.
  - match goal with IH : Sorted _ _ → (lo ≤ mid ≤ _)%nat → _ |- _ =>
      apply IH; [done|lia|done|] end.
    intros i x Hi Hx.
    pose proof (Sorted_lookup_le a mid i m x Hs ltac:(lia) Hm Hx). lia.
Qed.

Lemma searchsorted_le_length a key : (searchsorted a key ≤ length a)%nat.
Proof. unfold searchsorted. pose proof (binsearch_left_range a key 0 (length a)). lia. Qed.

Lemma searchsorted_sorted a key :
  Sorted Z.le a →
  (∀ i x, (i < searchsorted a key)%nat → a !! i = Some x → x < key) ∧
  (∀ i x, (searchsorted a key ≤ i)%nat → a !! i = Some x → key ≤ x).
Proof.
  intros Hs. apply binsearch_left_sorted; [done|lia|lia|].
  intros i x Hi Hx. apply lookup_lt_Some in Hx. lia.
Qed.

(** The two-element window [a[k:k+2]]. *)
Lemma slice_window a k :
  slice a k (S k + 1) =
    match a !! k with
    | None => []
    | Some u => u :: match a !! S k with None => [] | Some w => [w] end
    end.
Proof.
  unfold slice. replace (S k + 1 - k)%nat with 2%nat by lia.
  destruct (a !! k) as [u|] eqn:Hk.
  - rewrite (drop_S _ _ _ Hk). cbn [take]. f_equal.
    destruct (a !! S k) as [w|] eqn:Hk'.
    + by rewrite (drop_S _ _ _ Hk').
    + apply lookup_ge_None in Hk'. by rewrite drop_ge.
  - apply lookup_ge_None in Hk. by rewrite drop_ge.
Qed.

(** [find_closest] on a numpy array, by cases on the insertion index. *)
Lemma find_closest_cases dt a pivot :
  find_closest dt (NdArray a) pivot =
    match searchsorted a pivot with
    | O => getitem a 0
    | S k =>
        match a !! k, a !! S k with
        | None, _ => Raise ValueError
        | Some u, None => OK u
        | Some u, Some w =>
            OK (if bool_decide (absolute dt (subtract dt w pivot)
                                < absolute dt (subtract dt u pivot))
                then w else u)
        end
    end.
Proof.
  unfold find_closest. cbn [is_ndarray elements_of].
  destruct (searchsorted a pivot) as [|k]; [done|].
  rewrite bool_decide_true by done.
  replace (S k - 1)%nat with k by lia. rewrite slice_window.
  destruct (a !! k) as [u|]; [|done].
  destruct (a !! S k) as [w|]; [|done].
  cbn. by case_bool_decide.
Qed.

(** A non-empty numpy array always has an answer, sorted or not. *)
Lemma find_closest_total dt a pivot :
  a ≠ [] → ∃ v, find_closest dt (NdArray a) pivot = OK v.
Proof.
  intros Hne. rewrite find_closest_cases.
  pose proof (searchsorted_le_length a pivot) as Hlen.
  destruct (searchsorted a pivot) as [|k].
  - destruct a as [|v a]; [done|]. by exists v.
  - destruct (lookup_lt_is_Some_2 a k) as [u Hu]; [lia|]. rewrite Hu.
    destruct (a !! S k); eauto.
Qed.

Lemma find_closest_empty dt pivot :
  find_closest dt (NdArray []) pivot = Raise IndexError.
Proof. reflexivity. Qed.

(** One step of the loop, seen from the output: position [i] is written, the
    positions before it and after the pivots are as they were. *)
Ltac loop_step i v ps :=
  rewrite (take_S_r _ i v) by (apply list_lookup_insert_eq; lia);
  rewrite take_insert_ge by lia;
  rewrite drop_insert_lt by lia;
  rewrite <- (assoc_L (++)); cbn;
  by replace (S (i + length ps)) with (i + S (length ps))%nat by lia.

(** The loop either raises or writes one entry per pivot over the positions
    [i], [i+1], ... of [output] and nothing else. *)
Lemma align_loop_inv dt (sa : array_like) (md : option Z) (pivots : list Z) :
  ∀ (i : nat) (output out : list (option Z)),
    (i + length pivots ≤ length output)%nat →
    align_loop dt sa md i pivots output = OK out →
    ∃ entries,
      Forall2 (λ p r, align_entry dt sa md p = OK r) pivots entries
      ∧ out = take i output ++ entries ++ drop (i + length pivots) output.
Proof.
  induction pivots as [|p ps IH]; intros i output out Hlen Hrun; cbn in *.
  - exists []. split; [constructor|]. injection Hrun as <-.
    cbn. by rewrite Nat.add_0_r, take_drop.
  - destruct (align_entry dt sa md p) as [r|e] eqn:Hp; [|done]. cbn in Hrun.
    apply IH in Hrun as (entries & Hent & ->); [|rewrite length_insert; lia].
    exists (r :: entries). split; [by constructor|]. loop_step i r ps.
Qed.

Lemma align_loop_ok dt (sa : array_like) (md : option Z) (f : Z → option Z)
    (pivots : list Z) :
  (∀ p, p ∈ pivots → align_entry dt sa md p = OK (f p)) →
  ∀ (i : nat) (output : list (option Z)),
    (i + length pivots ≤ length output)%nat →
    align_loop dt sa md i pivots output
    = OK (take i output ++ (f <$> pivots) ++ drop (i + length pivots) output).
Proof.
  induction pivots as [|p ps IH]; intros Hf i output Hlen; cbn.
  - by rewrite Nat.add_0_r, take_drop.
  - cbn in Hlen. rewrite (Hf p) by left. cbn.
    rewrite IH; [|intros; apply Hf; by right|rewrite length_insert; lia].
    f_equal. loop_step i (f p) ps.
Qed.

(** The first pivot without an entry ends the loop with its exception. *)
Lemma align_loop_raise dt (sa : array_like) (md : option Z) (e : exn)
    (p : Z) (pivots : list Z) (i : nat) (output : list (option Z)) :
  align_entry dt sa md p = Raise e →
  align_loop dt sa md i (p :: pivots) output = Raise e.
Proof. intros He. cbn. by rewrite He. Qed.

Lemma align_arrays_inv dt (sa : array_like) (md : option Z)
    (pivots : list Z) (out : list (option Z)) :
  align_arrays dt sa (NdArray pivots) md = OK out →
  Forall2 (λ p r, align_entry dt (NdArray (merge_sort Z.le (elements_of sa))) md p
                  = OK r)
          pivots out.
Proof.
  unfold align_arrays. cbn [is_ndarray elements_of]. intros Hrun.
  apply align_loop_inv in Hrun as (entries & Hent & ->);
    [|rewrite length_replicate; lia].
  rewrite drop_ge by (rewrite length_replicate; lia).
  by rewrite app_nil_r.
Qed.

Lemma align_arrays_ok dt (sa : array_like) (md : option Z) (f : Z → option Z)
    (pivots : list Z) :
  (∀ p, p ∈ pivots →
        align_entry dt (NdArray (merge_sort Z.le (elements_of sa))) md p = OK (f p)) →
  align_arrays dt sa (NdArray pivots) md = OK (f <$> pivots).
Proof.
  intros Hf. unfold align_arrays. cbn [is_ndarray elements_of].
  rewrite (align_loop_ok _ _ _ f) by (done || rewrite length_replicate; lia).
  rewrite drop_ge by (rewrite length_replicate; lia).
  by rewrite app_nil_r.
Qed.
End aligner_facts.

(** ** The aligner on sorted and on unsorted input *)

(** The answer of [find_closest] on a non-empty sorted array whose distances
    to the pivot are computed exactly. *)
Lemma find_closest_sorted_nearest dt (search_array : list Z) (pivot : Z) :
  search_array ≠ [] →
  Sorted Z.le search_array →
  (∀ x, x ∈ search_array →
        absolute dt (subtract dt x pivot) = Z.abs (x - pivot)) →
  ∃ v, find_closest dt (NdArray search_array) pivot = OK v
       ∧ v ∈ search_array
       ∧ ∀ x, x ∈ search_array → Z.abs (v - pivot) ≤ Z.abs (x - pivot).
Proof.
  intros Hne Hs Hno. rewrite find_closest_cases.
  destruct (searchsorted_sorted search_array pivot Hs) as [Hlt Hge].
  pose proof (searchsorted_le_length search_array pivot) as Hlen.
  destruct (searchsorted search_array pivot) as [|k].
  - destruct search_array as [|v a]; [done|]. exists v. cbn.
    split; [done|]. split; [left|].
    intros x [i Hi]%list_elem_of_lookup.
    pose proof (Hge 0%nat v ltac:(lia) eq_refl).
    pose proof (Hge i x ltac:(lia) Hi).
    pose proof (Sorted_lookup_le (v :: a) 0 i v x Hs ltac:(lia) eq_refl Hi). lia.
  - destruct (lookup_lt_is_Some_2 search_array k) as [u Hu]; [lia|].
    rewrite Hu. pose proof (Hlt k u ltac:(lia) Hu) as Hup.
    assert (Hbelow : ∀ i x, (i ≤ k)%nat → search_array !! i = Some x →
                            Z.abs (u - pivot) ≤ Z.abs (x - pivot)).
    { intros i x Hi Hx. pose proof (Hlt i x ltac:(lia) Hx).
      pose proof (Sorted_lookup_le _ i k x u Hs Hi Hx Hu). lia. }
    destruct (search_array !! S k) as [w|] eqn:Hw.
    + rewrite (Hno u), (Hno w) by (by eapply list_elem_of_lookup_2).
      pose proof (Hge (S k) w ltac:(lia) Hw) as Hwp.
      assert (Habove : ∀ i x, (S k ≤ i)%nat → search_array !! i = Some x →
                              Z.abs (w - pivot) ≤ Z.abs (x - pivot)).
      { intros i x Hi Hx. pose proof (Hge i x Hi Hx).
        pose proof (Sorted_lookup_le _ (S k) i w x Hs Hi Hw Hx). lia. }
      eexists. split; [done|]. case_bool_decide as Hcmp.
      * split; [by eapply list_elem_of_lookup_2|].
        intros x [i Hi]%list_elem_of_lookup.
        destruct (decide (i ≤ k)%nat).
        -- pose proof (Hbelow i x ltac:(lia) Hi). lia.
        -- apply (Habove i x); [lia|done].
      * split; [by eapply list_elem_of_lookup_2|].
        intros x [i Hi]%list_elem_of_lookup.
        destruct (decide (i ≤ k)%nat).
        -- by apply (Hbelow i x).
        -- pose proof (Habove i x ltac:(lia) Hi). lia.
    + exists u. split; [done|]. split; [by eapply list_elem_of_lookup_2|].
      intros x [i Hi]%list_elem_of_lookup. apply (Hbelow i x); [|done].
      apply lookup_ge_None in Hw. apply lookup_lt_Some in Hi. lia.
Qed.

(** A pivot outside the range of a sorted array is answered with the end of
    the array on its side, whatever the distances: no element is compared
    with another one there. *)
Lemma find_closest_sorted_outside dt (search_array : list Z) (pivot v : Z) :
  Sorted Z.le search_array →
  find_closest dt (NdArray search_array) pivot = OK v →
  ((∀ x, x ∈ search_array → pivot ≤ x) → ∀ x, x ∈ search_array → v ≤ x)
  ∧ ((∀ x, x ∈ search_array → x < pivot) → ∀ x, x ∈ search_array → x ≤ v).
Proof.
  intros Hs. rewrite find_closest_cases.
  destruct (searchsorted_sorted search_array pivot Hs) as [Hlt Hge].
  destruct (searchsorted search_array pivot) as [|k].
  - unfold getitem. destruct (search_array !! 0%nat) as [v0|] eqn:H0; [|done].
    intros [= <-]. split.
    + intros _ x [i Hi]%list_elem_of_lookup.
      apply (Sorted_lookup_le search_array 0 i); [done|lia|done..].
    + intros Hhigh. pose proof (Hge 0%nat v0 ltac:(lia) H0).
      pose proof (Hhigh v0 ltac:(by eapply list_elem_of_lookup_2)). lia.
  - destruct (search_array !! k) as [u|] eqn:Hu; [|done].
    pose proof (Hlt k u ltac:(lia) Hu) as Hup.
    destruct (search_array !! S k) as [w|] eqn:Hw.
    + intros _. split.
      * intros Hlow. pose proof (Hlow u ltac:(by eapply list_elem_of_lookup_2)). lia.
      * intros Hhigh. pose proof (Hge (S k) w ltac:(lia) Hw).
        pose proof (Hhigh w ltac:(by eapply list_elem_of_lookup_2)). lia.
    + intros [= <-]. split.
      * intros Hlow. pose proof (Hlow u ltac:(by eapply list_elem_of_lookup_2)). lia.
      * intros _ x [i Hi]%list_elem_of_lookup.
        apply (Sorted_lookup_le search_array i k); [done| |done..].
        apply lookup_ge_None in Hw. apply lookup_lt_Some in Hi. lia.
Qed.

(** Every pivot has an entry on the sorted copy of a non-empty array. *)
Lemma align_entry_total dt (search_array : list Z) (max_dist : option Z) (p : Z) :
  search_array ≠ [] →
  ∃ r, align_entry dt (NdArray (merge_sort Z.le search_array)) max_dist p = OK r.
Proof.
  intros Hne.
  assert (Hne' : merge_sort Z.le search_array ≠ []).
  { intros Hnil. pose proof (merge_sort_Permutation Z.le search_array) as Hperm.
    rewrite Hnil in Hperm. by apply Permutation_nil_l in Hperm. }
  destruct (find_closest_total dt _ p Hne') as [v Hv].
  destruct max_dist as [d|]; cbn [align_entry]; unfold closest_within_distance;
    rewrite Hv; cbn; eauto.
Qed.

(** What one entry of the output of [align_arrays] is, for a search array that
    need not be sorted: the entry is computed on the sorted copy. *)
Lemma align_entry_sorted_copy dt (search_array : list Z) (max_dist : option Z)
    (p : Z) :
  search_array ≠ [] →
  (∀ x, x ∈ search_array → absolute dt (subtract dt x p) = Z.abs (x - p)) →
  ∃ r, align_entry dt (NdArray (merge_sort Z.le search_array)) max_dist p = OK r
       ∧ match max_dist with
         | None =>
             ∃ v, r = Some v ∧ v ∈ search_array
                  ∧ ∀ x, x ∈ search_array → Z.abs (v - p) ≤ Z.abs (x - p)
         | Some d =>
             (r = None ↔ ∀ x, x ∈ search_array → d < Z.abs (x - p))
             ∧ ∀ v, r = Some v →
                 v ∈ search_array ∧ Z.abs (v - p) ≤ d
                 ∧ ∀ x, x ∈ search_array → Z.abs (v - p) ≤ Z.abs (x - p)
         end.
Proof.
  intros Hne Hno.
  pose proof (merge_sort_Permutation Z.le search_array) as Hperm.
  assert (Hne' : merge_sort Z.le search_array ≠ []).
  { intros Hnil. rewrite Hnil in Hperm. by apply Permutation_nil_l in Hperm. }
  assert (Hs : Sorted Z.le (merge_sort Z.le search_array))
    by apply (Sorted_merge_sort Z.le).
  assert (Hmem : ∀ x, x ∈ merge_sort Z.le search_array ↔ x ∈ search_array)
    by (intros x; by rewrite Hperm).
  destruct (find_closest_sorted_nearest dt _ p Hne' Hs) as (v & Hv & Hin & Hmin).
  { intros x Hx. by apply Hno, Hmem. }
  apply Hmem in Hin.
  assert (Hmin' : ∀ x, x ∈ search_array → Z.abs (v - p) ≤ Z.abs (x - p))
    by (intros x Hx; by apply Hmin, Hmem).
  destruct max_dist as [d|]; cbn [align_entry].
  - unfold closest_within_distance. rewrite Hv. cbn.
    rewrite (Hno v) by done.
    eexists. split; [done|]. case_bool_decide as Hd.
    + split; [|intros v' [= <-]; done].
      split; [done|]. intros Hfar. specialize (Hfar v Hin). lia.
    + split; [|intros v' [=]].
      split; [|done]. intros _ x Hx. specialize (Hmin' x Hx). lia.
  - rewrite Hv. cbn. eexists. split; [done|]. by exists v.
Qed.

(** With a non-empty search array every pivot has an entry. *)
Lemma align_arrays_entries dt (search_array : array_like) (max_dist : option Z)
    (pivots : list Z) :
  elements_of search_array ≠ [] →
  align_arrays dt search_array (NdArray pivots) max_dist
  = OK (aligned_entry dt (elements_of search_array) max_dist <$> pivots).
Proof.
  intros Hne. apply align_arrays_ok. intros p _. unfold aligned_entry.
  destruct (align_entry_total dt _ max_dist p Hne) as (r & Hr).
  by rewrite Hr.
Qed.

Lemma aligned_entry_spec dt (search_array : list Z) (max_dist : option Z) (p : Z) :
  search_array ≠ [] →
  (∀ x, x ∈ search_array → absolute dt (subtract dt x p) = Z.abs (x - p)) →
  match max_dist with
  | None =>
      ∃ v, aligned_entry dt search_array max_dist p = Some v ∧ v ∈ search_array
           ∧ ∀ x, x ∈ search_array → Z.abs (v - p) ≤ Z.abs (x - p)
  | Some d =>
      (aligned_entry dt search_array max_dist p = None
       ↔ ∀ x, x ∈ search_array → d < Z.abs (x - p))
      ∧ ∀ v, aligned_entry dt search_array max_dist p = Some v →
          v ∈ search_array ∧ Z.abs (v - p) ≤ d
          ∧ ∀ x, x ∈ search_array → Z.abs (v - p) ≤ Z.abs (x - p)
  end.
Proof.
  intros Hne Hno. unfold aligned_entry.
  destruct (align_entry_sorted_copy dt _ max_dist p Hne Hno) as (r & Hr & Hspec).
  by rewrite Hr.
Qed.

(** ** Properties of the driver *)

Section driver_facts.
Implicit Types (self : DatabaseUploader) (data sub_data : DataFrame)
  (log : list db_event) (p col eng_table : string) (date_range : Z * Z).

(** An answer of [find_closest] is an element of the array. *)
Lemma find_closest_elem (dt : dtype) (a : list Z) (pivot v : Z) :
  find_closest dt (NdArray a) pivot = OK v → v ∈ a.
Proof.
  rewrite find_closest_cases.
  destruct (searchsorted a pivot) as [|k].
  - unfold getitem. destruct (a !! 0%nat) eqn:H0; [|done].
    intros [= <-]. by eapply list_elem_of_lookup_2.
  - destruct (a !! k) as [u|] eqn:Hu; [|done].
    destruct (a !! S k) as [w|] eqn:Hw.
    + intros [= <-]. case_bool_decide; by eapply list_elem_of_lookup_2.
    + intros [= <-]. by eapply list_elem_of_lookup_2.
Qed.

Lemma align_entry_elem (dt : dtype) (search_array : list Z) (md : option Z)
    (pivot t : Z) :
  align_entry dt (NdArray (merge_sort Z.le search_array)) md pivot = OK (Some t) →
  t ∈ search_array.
Proof.
  intros Hrun. rewrite <- (merge_sort_Permutation Z.le search_array).
  unfold align_entry, closest_within_distance, rbind in Hrun.
  destruct md as [d|];
    destruct (find_closest _ _ pivot) as [v|] eqn:Hv; try done.
  - case_bool_decide; [|done]. injection Hrun as <-. by eapply find_closest_elem.
  - injection Hrun as <-. by eapply find_closest_elem.
Qed.

Lemma for_each_emit {A} (g : A → db_event) (l : list A) log :
  for_each l (λ x, emit (g x)) log = (OK tt, log ++ (g <$> l)).
Proof.
  revert log. induction l as [|x l IH]; intros log; cbn.
  - by rewrite app_nil_r.
  - unfold io_bind, emit at 1. rewrite IH. by rewrite <- (assoc_L (++)).
Qed.

Lemma for_each_ext {A} (body body' : A → io unit) (l : list A) :
  (∀ x, body x = body' x) → for_each l body = for_each l body'.
Proof.
  intros Hext. induction l as [|x l IH]; [done|]. cbn. by rewrite Hext, IH.
Qed.

(** On a table that exists every statement of [run_update_sql] is
    executed. *)
Lemma run_update_sql_log (cursor : Database) (stmt : sql_update)
    (dtimes : list Z) (param_data : list float) log :
  is_Some (eng_tables cursor !! upd_table stmt) →
  run_update_sql cursor stmt dtimes param_data log
  = (OK tt, log ++ ((λ dv, Execute stmt dv.2 dv.1) <$> zip dtimes param_data)).
Proof.
  intros Htable. unfold run_update_sql.
  rewrite (for_each_ext _ (λ dv, emit (Execute stmt dv.2 dv.1)));
    [apply for_each_emit|].
  intros [d v]. unfold execute. by rewrite bool_decide_true.
Qed.

(** A header query that succeeds is one on a table that exists. *)
Lemma fetch_hdrtimes_table self (q : hdrtime_query) (hdrtimes : list Z) :
  fetch_hdrtimes self q = OK hdrtimes →
  is_Some (eng_tables (conn self) !! hq_table q).
Proof.
  unfold fetch_hdrtimes. by destruct (eng_tables (conn self) !! hq_table q).
Qed.

Lemma comprehension_Forall2 {A B} (f : A → result B) (Q : A → B → Prop)
    (l : list A) :
  (∀ a, a ∈ l → ∃ v, f a = OK v ∧ Q a v) →
  ∃ vs, comprehension f l = OK vs ∧ Forall2 Q l vs.
Proof.
  induction l as [|a l IH]; intros Hf; cbn.
  - exists []. by split; [|constructor].
  - destruct (Hf a) as (v & Hv & HQ); [left|]. rewrite Hv. cbn.
    destruct IH as (vs & Hvs & HQs); [intros; apply Hf; by right|].
    rewrite Hvs. cbn. exists (v :: vs). by split; [|constructor].
Qed.

Lemma comprehension_length {A B} (f : A → result B) (l : list A) (vs : list B) :
  comprehension f l = OK vs → length vs = length l.
Proof.
  revert vs. induction l as [|a l IH]; intros vs; cbn.
  - by intros [= <-].
  - destruct (f a); [|done]. cbn.
    destruct (comprehension f l) as [ws|]; [|done]. cbn.
    intros [= <-]. cbn. by rewrite (IH ws).
Qed.

Lemma filter_none {A} (P : A → Prop) `{!∀ x, Decision (P x)} (l : list A) :
  (∀ x, x ∈ l → ¬ P x) → filter P l = [].
Proof.
  induction l as [|x l IH]; intros Hno; [done|].
  rewrite filter_cons_False by (apply Hno; left).
  apply IH. intros y Hy. apply Hno. by right.
Qed.

(** With a unique index a label selects its one row. *)
Lemma filter_unique_label (rows : list row) (r : row) :
  NoDup (datetime <$> rows) → r ∈ rows →
  filter (λ r', datetime r' = datetime r) rows = [r].
Proof.
  induction rows as [|r0 rows IH]; intros Hnd Hin; [by apply elem_of_nil in Hin|].
  cbn in Hnd. apply NoDup_cons in Hnd as [Hfresh Hnd].
  apply elem_of_cons in Hin as [->|Hin].
  - rewrite filter_cons_True by done. f_equal.
    apply filter_none. intros r' Hr' Heq. apply Hfresh. rewrite <- Heq.
    apply list_elem_of_fmap. by exists r'.
  - rewrite filter_cons_False; [by apply IH|].
    intros Heq. apply Hfresh. rewrite Heq.
    apply list_elem_of_fmap. by exists r.
Qed.

Lemma loc_unique data p (r : row) :
  p ∈ df_columns data →
  NoDup (datetime <$> df_rows data) →
  r ∈ df_rows data →
  loc data p (Some (datetime r)) = OK (cell r p).
Proof.
  intros Hp Hnd Hin. unfold loc. rewrite bool_decide_true by done.
  by rewrite filter_unique_label.
Qed.

Lemma parameter_mapping_columns p col :
  parameter_mapping !! p = Some col → col = "sst" ∨ col = "sal".
Proof.
  unfold parameter_mapping. intros Hl.
  repeat (apply lookup_insert_Some in Hl as [[_ <-]|[_ Hl]]; [tauto|]).
  apply lookup_singleton_Some in Hl as [_ <-]. tauto.
Qed.

Lemma filter_zip_snd {A B} (P : B → Prop) `{!∀ b, Decision (P b)}
    (l : list A) (k : list B) :
  length l = length k →
  (filter (λ ab, P ab.2) (zip l k)).*2 = filter P k.
Proof.
  revert k. induction l as [|a l IH]; intros [|b k] Hlen; try done.
  cbn in Hlen. cbn [zip zip_with]. rewrite !filter_cons. cbn.
  case_decide; cbn; by rewrite IH by lia.
Qed.

(** Rows that pass the filter of [positive_rows] keep the unique index. *)
Lemma positive_rows_inv data p sub_data :
  positive_rows data p = OK sub_data →
  p ∈ df_columns sub_data
  ∧ (∀ r, r ∈ df_rows sub_data ↔
          r ∈ df_rows data ∧ PrimFloat.ltb 0 (cell r p) = true)
  ∧ (NoDup (datetime <$> df_rows data) → NoDup (datetime <$> df_rows sub_data)).
Proof.
  unfold positive_rows. case_bool_decide as Hp; [|done]. intros [= <-]. cbn.
  split; [done|]. split.
  - intros r. rewrite list_elem_of_filter. tauto.
  - intros Hnd. eapply sublist_NoDup; [done|].
    apply fmap_sublist, sublist_filter.
Qed.

Lemma hdrtimes_and_aligned_inv self eng_table date_range sub_data
    (hdrtimes : list Z) (aligned : list (option Z)) :
  _get_hdrtimes_and_aligned_times self eng_table date_range sub_data
  = OK (hdrtimes, aligned) →
  fetch_hdrtimes self (generate_hdrtime_query eng_table date_range.1 date_range.2)
  = OK hdrtimes
  ∧ align_arrays datetime64 (NdArray (datetime <$> df_rows sub_data))
                 (NdArray ((λ t, t + timedelta64_m 17) <$> hdrtimes))
                 (Some (timedelta64_m 20)) = OK aligned.
Proof.
  unfold _get_hdrtimes_and_aligned_times, rbind.
  cbn zeta. destruct (fetch_hdrtimes _ _) as [h|]; [|done].
  destruct (align_arrays _ _ _ _) as [a|] eqn:Ha; [|done].
  intros [= <- <-]. by rewrite Ha.
Qed.

Lemma updates_Forall2 (stmt : sql_update) sub_data p
    (F : list (Z * option Z)) (vs : list float) :
  Forall2 (λ a v, ∃ r, a = Some (datetime r) ∧ r ∈ df_rows sub_data ∧ v = cell r p)
          (F.*2) vs →
  Forall2 (update_for stmt sub_data p) F
          ((λ dv, Execute stmt dv.2 dv.1) <$> zip (F.*1) vs).
Proof.
  revert vs. induction F as [|[h a] F IH]; intros vs Hvs; cbn in *.
  - inversion Hvs. constructor.
  - inversion Hvs as [|a' v F' vs' (r & -> & Hr & ->) Hrest]; subst.
    cbn. constructor; [|by apply IH].
    by exists r.
Qed.

(** The statements of one table and parameter: one update per pair of a
    header time and a true aligned time, in the order of the header times,
    then a commit. *)
Lemma update_unit_log self data date_range eng_table p col sub_data
    (hdrtimes : list Z) (aligned : list (option Z)) log :
  positive_rows data p = OK sub_data →
  _get_hdrtimes_and_aligned_times self eng_table date_range sub_data
  = OK (hdrtimes, aligned) →
  NoDup (datetime <$> df_rows data) →
  parameter_mapping !! p = Some col →
  ∃ updates,
    update_unit self data date_range eng_table p log
    = (OK tt, (log ++ updates) ++ [Commit])
    ∧ Forall2 (update_for (UpdateSql eng_table col) sub_data p)
              (filter (λ ha, truthy ha.2 = true) (zip hdrtimes aligned))
              updates.
Proof.
  intros Hsub Hha Hnd Hcol.
  destruct (positive_rows_inv _ _ _ Hsub) as (Hp & Hrows & Hnd'). specialize (Hnd' Hnd).
  destruct (hdrtimes_and_aligned_inv _ _ _ _ _ _ Hha) as [Hfetch Halign].
  apply fetch_hdrtimes_table in Hfetch.
  apply align_arrays_inv in Halign. cbn [elements_of] in Halign.
  assert (Hlen : length hdrtimes = length aligned).
  { apply Forall2_length in Halign. by rewrite length_fmap in Halign. }
  destruct (comprehension_Forall2 (loc sub_data p)
              (λ a v, ∃ r, a = Some (datetime r) ∧ r ∈ df_rows sub_data ∧ v = cell r p)
              (filter (λ dtime, truthy dtime = true) aligned)) as (vs & Hvs & HQ).
  { intros a [Hta [i Hi]%list_elem_of_lookup]%list_elem_of_filter.
    destruct a as [t|]; [|done].
    destruct (Forall2_lookup_r _ _ _ _ _ Halign Hi) as (pv & _ & Hentry).
    apply align_entry_elem in Hentry.
    apply list_elem_of_fmap in Hentry as (r & -> & Hr).
    exists (cell r p). split; [by apply loc_unique|]. by exists r. }
  unfold update_unit, io_bind, lift. rewrite Hsub, Hha, Hvs.
  unfold mapped_parameter. rewrite Hcol.
  unfold generate_update_sql.
  rewrite bool_decide_true by (by apply (parameter_mapping_columns p)).
  rewrite run_update_sql_log by done. unfold emit.
  eexists. split; [done|].
  apply updates_Forall2.
  replace ((filter (λ ha, truthy ha.2 = true) (zip hdrtimes aligned)).*2)
    with (filter (λ a, truthy a = true) aligned); [done|].
  symmetry. exact (filter_zip_snd (λ a, truthy a = true) hdrtimes aligned Hlen).
Qed.

Lemma NoDup_fmap_elem_inj {A B} (f : A → B) (l : list A) (x y : A) :
  NoDup (f <$> l) → x ∈ l → y ∈ l → f x = f y → x = y.
Proof.
  induction l as [|a l IH]; intros Hnd Hx Hy Hxy; [by apply elem_of_nil in Hx|].
  cbn in Hnd. apply NoDup_cons in Hnd as [Hfresh Hnd].
  apply elem_of_cons in Hx as [->|Hx]; apply elem_of_cons in Hy as [->|Hy].
  - done.
  - exfalso. apply Hfresh. rewrite Hxy. apply list_elem_of_fmap. by exists y.
  - exfalso. apply Hfresh. rewrite <- Hxy. apply list_elem_of_fmap. by exists x.
  - by apply IH.
Qed.

Lemma filter_ext_elem {A} (P Q : A → Prop)
    `{!∀ x, Decision (P x)} `{!∀ x, Decision (Q x)} (l : list A) :
  (∀ x, x ∈ l → P x ↔ Q x) → filter P l = filter Q l.
Proof.
  induction l as [|a l IH]; intros Hext; [done|].
  rewrite !filter_cons.
  assert (Ha : P a ↔ Q a) by (apply Hext; left).
  rewrite IH by (intros; apply Hext; by right).
  destruct (decide (P a)), (decide (Q a)); tauto.
Qed.

Lemma elem_of_zip_fmap {A B} (g : A → B) (l : list A) (x : A) :
  x ∈ l → (x, g x) ∈ zip l (g <$> l).
Proof.
  induction l as [|a l IH]; intros Hx; [by apply elem_of_nil in Hx|].
  cbn. apply elem_of_cons in Hx as [->|Hx]; [left|right; by apply IH].
Qed.

Lemma elem_of_zip_fst {A B} (l : list A) (k : list B) (ab : A * B) :
  ab ∈ zip l k → ab.1 ∈ l.
Proof.
  revert k. induction l as [|a l IH]; intros [|b k] Hin; cbn in Hin;
    try by apply elem_of_nil in Hin.
  apply elem_of_cons in Hin as [->|Hin]; [left|right; by eapply IH].
Qed.

Lemma existence_loop_step self (i : nat) (engineering_tables : list string) :
  existence_loop self i engineering_tables
  = match engineering_tables !! i with
    | Some eng_table =>
        if table_exists self eng_table
        then existence_loop self (S i) engineering_tables
        else existence_loop self (S i)
               (list_remove_first eng_table engineering_tables)
    | None => engineering_tables
    end.
Proof.
  funelim (existence_loop self i engineering_tables);
    match goal with H : _ !! _ = _ |- _ => by rewrite H end.
Qed.

(** The driver reads its connection and nothing else of [self]. *)
Lemma existence_loop_conn self self' (i : nat) (engineering_tables : list string) :
  conn self = conn self' →
  existence_loop self i engineering_tables
  = existence_loop self' i engineering_tables.
Proof.
  intros Hconn. funelim (existence_loop self i engineering_tables);
    rewrite (existence_loop_step self');
    match goal with H : _ !! _ = _ |- _ => rewrite H end; [|done].
  replace (table_exists self' eng_table) with (table_exists self eng_table)
    by (unfold table_exists; by rewrite Hconn).
  destruct (table_exists self eng_table); auto.
Qed.

Lemma update_unit_conn self self' data date_range eng_table p :
  conn self = conn self' →
  update_unit self data date_range eng_table p
  = update_unit self' data date_range eng_table p.
Proof.
  intros Hconn.
  unfold update_unit, _get_hdrtimes_and_aligned_times, fetch_hdrtimes.
  by rewrite Hconn.
Qed.

Lemma update_table_conn self self' data (station_name : string)
    (parameters : list string) log :
  conn self = conn self' →
  update_table self data station_name parameters log
  = update_table self' data station_name parameters log.
Proof.
  intros Hconn. unfold update_table, io_bind, lift.
  destruct (_get_date_range data) as [dr|]; [|done].
  replace (_get_engineering_table_names self' station_name dr)
    with (_get_engineering_table_names self station_name dr).
  2:{ unfold _get_engineering_table_names, _test_for_eng_table_existence.
      rewrite Hconn. by apply existence_loop_conn. }
  rewrite (for_each_ext
             (λ eng_table, for_each parameters (λ p, update_unit self data dr eng_table p))
             (λ eng_table, for_each parameters (λ p, update_unit self' data dr eng_table p)));
    [done|].
  intros eng_table. apply for_each_ext. intros p. by apply update_unit_conn.
Qed.

(** Exceptions of a loop body leave the loop. *)
Lemma for_each_raise {A} (body : A → io unit) (x : A) (l : list A)
    (e : exn) log log' :
  body x log = (Raise e, log') →
  for_each (x :: l) body log = (Raise e, log').
Proof. intros Hbody. cbn. unfold io_bind. by rewrite Hbody. Qed.

(** A loop over two stretches runs the first and, if that ends normally, the
    second. *)
Lemma for_each_app {A} (body : A → io unit) (l1 l2 : list A) log :
  for_each (l1 ++ l2) body log
  = match for_each l1 body log with
    | (OK _, log') => for_each l2 body log'
    | (Raise e, log') => (Raise e, log')
    end.
Proof.
  revert log. induction l1 as [|x l1 IH]; intros log; [done|].
  cbn. unfold io_bind. destruct (body x log) as [[[]|e] log']; [apply IH|done].
Qed.

(** The two lists handed to [run_update_sql] have the same length. *)
Lemma update_lists_same_length sub_data p (hdrtimes : list Z)
    (aligned : list (option Z)) (param_data : list float) :
  length hdrtimes = length aligned →
  comprehension (loc sub_data p) (filter (λ dtime, truthy dtime = true) aligned)
  = OK param_data →
  length ((filter (λ ha, truthy ha.2 = true) (zip hdrtimes aligned)).*1)
  = length param_data.
Proof.
  intros Hlen Hvs. rewrite (comprehension_length _ _ _ Hvs).
  rewrite <- (filter_zip_snd (λ a, truthy a = true) hdrtimes aligned Hlen).
  by rewrite !length_fmap.
Qed.
End driver_facts.

(** ** What the specification states about the aligner *)

(** The two scenarios of the specification. *)
Example align_no_max_dist :
  align_arrays int64 (NdArray [10; 20; 30]) (NdArray [5; 15; 25; 100]) None
  = OK [Some 10; Some 10; Some 20; Some 30].
Proof. reflexivity. Qed.

Example align_max_dist_3 :
  align_arrays int64 (NdArray [10; 20; 30]) (NdArray [11; 25]) (Some 3)
  = OK [Some 10; None].
Proof. reflexivity. Qed.












(** ** What the specification states about the driver *)

(** C5, as the code has it.  Take a header time [T] that the query returns for
    the table and a sensor row at [T] + 17 minutes whose value is strictly
    positive (other rows are dropped before the alignment) and whose time
    stamp is not zero, in a frame with a unique index.  Then [T] is aligned
    with that row and the statements of the table and parameter hold an update
    with key [T], the header time before the offset, and the value of the row;
    every key of the unit is a header time of the query. *)
Theorem update_key_is_header_time
    (self : DatabaseUploader) (data : DataFrame) (date_range : Z * Z)
    (eng_table p col : string) (hdrtimes : list Z) (T : Z) (r : row)
    (log : list db_event) :
  p ∈ df_columns data →
  parameter_mapping !! p = Some col →
  NoDup (datetime <$> df_rows data) →
  fetch_hdrtimes self (generate_hdrtime_query eng_table date_range.1 date_range.2)
  = OK hdrtimes →
  T ∈ hdrtimes →
  r ∈ df_rows data →
  datetime r = T + timedelta64_m 17 →
  PrimFloat.ltb 0 (cell r p) = true →
  datetime r ≠ 0 →
  ∃ sub_data aligned updates,
    positive_rows data p = OK sub_data
    ∧ _get_hdrtimes_and_aligned_times self eng_table date_range sub_data
      = OK (hdrtimes, aligned)
    ∧ (T, Some (T + timedelta64_m 17)) ∈ zip hdrtimes aligned
    ∧ update_unit self data date_range eng_table p log
      = (OK tt, (log ++ updates) ++ [Commit])
    ∧ Execute (UpdateSql eng_table col) (cell r p) T ∈ updates
    ∧ ∀ stmt v key, Execute stmt v key ∈ updates → key ∈ hdrtimes.
Proof.
  intros Hp Hcol Hnd Hfetch HT Hr Htime Hpos Hnz.
  set (sub_data := Frame (df_columns data)
                     (filter (λ r, PrimFloat.ltb 0 (cell r p) = true) (df_rows data))).
  assert (Hsub : positive_rows data p = OK sub_data)
    by (unfold positive_rows; by rewrite bool_decide_true).
  destruct (positive_rows_inv _ _ _ Hsub) as (_ & Hrows & _).
  assert (Hrsub : r ∈ df_rows sub_data) by by apply Hrows.
  set (times := datetime <$> df_rows sub_data).
  assert (Hin : T + timedelta64_m 17 ∈ times).
  { rewrite <- Htime. apply list_elem_of_fmap. by exists r. }
  assert (Hne : times ≠ []) by (intros Hnil; rewrite Hnil in Hin; by apply elem_of_nil in Hin).
  set (entry := aligned_entry datetime64 times (Some (timedelta64_m 20))).
  set (aligned := (λ t, entry (t + timedelta64_m 17)) <$> hdrtimes).
  assert (Hha : _get_hdrtimes_and_aligned_times self eng_table date_range sub_data
                = OK (hdrtimes, aligned)).
  { unfold _get_hdrtimes_and_aligned_times. rewrite Hfetch. cbn [rbind].
    rewrite align_arrays_entries by done. cbn [rbind elements_of].
    by rewrite <- list_fmap_compose. }
  assert (Hentry : entry (T + timedelta64_m 17) = Some (T + timedelta64_m 17)).
  { pose proof (aligned_entry_spec datetime64 times (Some (timedelta64_m 20))
                  (T + timedelta64_m 17) Hne
                  (λ x _, eq_refl)) as [Hnone Hsome].
    fold entry in Hnone, Hsome. destruct (entry _) as [v|].
    - destruct (Hsome v eq_refl) as (_ & _ & Hmin). specialize (Hmin _ Hin).
      f_equal. lia.
    - pose proof (proj1 Hnone eq_refl _ Hin) as Hfar.
      unfold timedelta64_m, minute in Hfar. lia. }
  assert (Hpair : (T, Some (T + timedelta64_m 17)) ∈ zip hdrtimes aligned).
  { rewrite <- Hentry. by apply (elem_of_zip_fmap (λ t, entry (t + timedelta64_m 17))). }
  destruct (update_unit_log self data date_range eng_table p col sub_data
              hdrtimes aligned log Hsub Hha Hnd Hcol) as (updates & Hrun & Hupd).
  exists sub_data, aligned, updates. do 4 (split; [done|]). split.
  - assert (Hfilt : (T, Some (T + timedelta64_m 17))
                    ∈ filter (λ ha, truthy ha.2 = true) (zip hdrtimes aligned)).
    { apply list_elem_of_filter. split; [|done]. cbn.
      apply bool_decide_eq_true. by rewrite <- Htime. }
    apply list_elem_of_lookup in Hfilt as [i Hi].
    destruct (Forall2_lookup_l _ _ _ _ _ Hupd Hi) as (ev & Hev & r' & Hr' & Hin' & ->).
    cbn in Hr'. injection Hr' as Hr'. rewrite <- Htime in Hr'.
    assert (r = r') as <-.
    { apply (NoDup_fmap_elem_inj datetime (df_rows data)); [done..| |done].
      by apply Hrows. }
    by eapply list_elem_of_lookup_2.
  - intros stmt v key [i Hi]%list_elem_of_lookup.
    destruct (Forall2_lookup_r _ _ _ _ _ Hupd Hi) as (ha & Hha' & r' & _ & _ & Heq).
    injection Heq as _ _ ->.
    apply list_elem_of_lookup_2, list_elem_of_filter in Hha' as [_ Hzip].
    by eapply elem_of_zip_fst.
Qed.

Lemma update_key_is_header_time_witness :
  ∃ sub_data aligned updates,
    positive_rows frame_one_reading "sst" = OK sub_data
    ∧ _get_hdrtimes_and_aligned_times
        {| conn := store_two_headers; testing := false |}
        "eng_0012_papa_19700101" (1020, 1620) sub_data
      = OK ([0; 60], aligned)
    ∧ (0, Some (0 + timedelta64_m 17)) ∈ zip [0; 60] aligned
    ∧ update_unit {| conn := store_two_headers; testing := false |}
        frame_one_reading (1020, 1620) "eng_0012_papa_19700101" "sst" []
      = (OK tt, ([] ++ updates) ++ [Commit])
    ∧ Execute (UpdateSql "eng_0012_papa_19700101" "sst")
              (cell (Row 1020 (cells 5.5 0)) "sst") 0 ∈ updates
    ∧ ∀ stmt v key, Execute stmt v key ∈ updates → key ∈ [0; 60].
Proof.
  apply (update_key_is_header_time
           {| conn := store_two_headers; testing := false |}
           frame_one_reading (1020, 1620) "eng_0012_papa_19700101" "sst" "sst"
           [0; 60] 0 (Row 1020 (cells 5.5 0)) []).
  - by left.
  - reflexivity.
  - cbn. apply NoDup_singleton.
  - reflexivity.
  - by left.
  - by left.
  - reflexivity.
  - reflexivity.
  - cbn. lia.
Defined.

(** C5 as stated fails for a sensor row that is not valid.  The header time 0
    is returned for the table and the frame has a row at 0 + 17 minutes, but
    its value is -1: the row is dropped, the header time is not matched, and
    no update is executed. *)
Lemma invalid_sample_gets_no_update :
  let self := {| conn := store_one_header; testing := false |} in
  fetch_hdrtimes self (generate_hdrtime_query "eng_0012_papa_19700101" 1020 100600)
  = OK [0]
  ∧ (∃ r, r ∈ df_rows frame_invalid_reading ∧ datetime r = 0 + timedelta64_m 17)
  ∧ (∃ sub_data,
       positive_rows frame_invalid_reading "sst" = OK sub_data
       ∧ _get_hdrtimes_and_aligned_times self "eng_0012_papa_19700101"
           (1020, 100600) sub_data = OK ([0], [None]))
  ∧ (update_table self frame_invalid_reading "Papa" ["sst"] []).2 = [Commit].
Proof.
  cbn zeta. split; [reflexivity|]. split.
  - eexists. split; [left|reflexivity].
  - split; [|reflexivity]. eexists. split; reflexivity.
Qed.

(** C6 is not what the code does.  [update_table] never reads [testing]: a
    call in testing mode runs exactly as one outside it, and in the scenario
    with two header times it executes two updates and a commit. *)
Theorem testing_mode_still_updates :
  (∀ (db : Database) (data : DataFrame) (station_name : string)
     (parameters : list string) (log : list db_event),
     update_table {| conn := db; testing := true |} data station_name parameters log
     = update_table {| conn := db; testing := false |} data station_name parameters log)
  ∧ (update_table {| conn := store_two_headers; testing := true |}
       frame_one_reading "Papa" ["sst"] []).2
    = [Execute (UpdateSql "eng_0012_papa_19700101" "sst") 5.5 0;
       Execute (UpdateSql "eng_0012_papa_19700101" "sst") 5.5 60;
       Commit].
Proof.
  split; [|reflexivity]. intros. by apply update_table_conn.
Qed.

(** C7, as the code has it.  When the alignment of a table and parameter
    succeeds, on a frame with a unique index and no zero time stamp, the
    statements of the unit are one update for each header time whose aligned
    entry is not [None], in the order of the header times, with that header
    time as key and the value of the aligned sensor row, followed by one
    commit.  Nothing keeps a sensor row from serving several header times. *)
Theorem one_update_per_matched_header
    (self : DatabaseUploader) (data sub_data : DataFrame) (date_range : Z * Z)
    (eng_table p col : string) (hdrtimes : list Z) (aligned : list (option Z))
    (log : list db_event) :
  positive_rows data p = OK sub_data →
  _get_hdrtimes_and_aligned_times self eng_table date_range sub_data
  = OK (hdrtimes, aligned) →
  NoDup (datetime <$> df_rows data) →
  parameter_mapping !! p = Some col →
  (∀ r, r ∈ df_rows data → datetime r ≠ 0) →
  ∃ updates,
    update_unit self data date_range eng_table p log
    = (OK tt, (log ++ updates) ++ [Commit])
    ∧ length hdrtimes = length aligned
    ∧ Forall2 (update_for (UpdateSql eng_table col) sub_data p)
              (filter (λ ha, is_Some ha.2) (zip hdrtimes aligned))
              updates.
Proof.
  intros Hsub Hha Hnd Hcol Hnz.
  destruct (update_unit_log self data date_range eng_table p col sub_data
              hdrtimes aligned log Hsub Hha Hnd Hcol) as (updates & Hrun & Hupd).
  destruct (positive_rows_inv _ _ _ Hsub) as (_ & Hrows & _).
  destruct (hdrtimes_and_aligned_inv _ _ _ _ _ _ Hha) as [_ Halign].
  apply align_arrays_inv in Halign. cbn [elements_of] in Halign.
  exists updates. split; [done|]. split.
  { apply Forall2_length in Halign. by rewrite length_fmap in Halign. }
  rewrite (filter_ext_elem (λ ha, is_Some ha.2) (λ ha, truthy ha.2 = true)); [done|].
  intros [h [t|]] Hin; cbn.
  - split; [intros _|by eauto].
    apply bool_decide_eq_true.
    assert (Ht : Some t ∈ aligned).
    { apply list_elem_of_lookup in Hin as [i Hi].
      apply lookup_zip_with_Some in Hi as (? & ? & [= <- <-] & _ & Ha).
      by eapply list_elem_of_lookup_2. }
    apply list_elem_of_lookup in Ht as [i Hi].
    destruct (Forall2_lookup_r _ _ _ _ _ Halign Hi) as (pv & _ & Hentry).
    apply align_entry_elem, list_elem_of_fmap in Hentry as (r & -> & Hr).
    apply Hnz. by apply Hrows.
  - split; [by intros [? [=]]|done].
Qed.

Lemma one_update_per_matched_header_witness :
  ∃ updates,
    update_unit {| conn := store_two_headers; testing := false |}
      frame_one_reading (1020, 1620) "eng_0012_papa_19700101" "sst" []
    = (OK tt, ([] ++ updates) ++ [Commit])
    ∧ length [0; 60] = length [Some 1020; Some 1020]
    ∧ Forall2 (update_for (UpdateSql "eng_0012_papa_19700101" "sst")
                 frame_one_reading "sst")
              (filter (λ ha, is_Some ha.2) (zip [0; 60] [Some 1020; Some 1020]))
              updates.
Proof.
  apply (one_update_per_matched_header
           {| conn := store_two_headers; testing := false |}
           frame_one_reading frame_one_reading (1020, 1620)
           "eng_0012_papa_19700101" "sst" "sst" [0; 60] [Some 1020; Some 1020] []).
  - reflexivity.
  - reflexivity.
  - cbn. apply NoDup_singleton.
  - reflexivity.
  - intros r Hr. cbn in Hr. apply list_elem_of_singleton in Hr as ->. cbn. lia.
Defined.

(** C7 as stated fails: the header times 0 s and 60 s are both aligned with
    the one sensor row at 1020 s, and each gets an update with its value. *)
Lemma sensor_point_matched_twice :
  let self := {| conn := store_two_headers; testing := false |} in
  _get_hdrtimes_and_aligned_times self "eng_0012_papa_19700101" (1020, 1620)
    frame_one_reading
  = OK ([0; 60], [Some 1020; Some 1020])
  ∧ (update_table self frame_one_reading "Papa" ["sst"] []).2
    = [Execute (UpdateSql "eng_0012_papa_19700101" "sst") 5.5 0;
       Execute (UpdateSql "eng_0012_papa_19700101" "sst") 5.5 60;
       Commit].
Proof. cbn zeta. split; reflexivity. Qed.

(** C8 is not what the code does when two resolved partitions in a row are
    missing.  Removing the first one moves the second into the position the
    loop has just read, so the second is never tested: it stays in the list
    whether it exists or not, and the header query on it raises. *)
Theorem consecutive_missing_partition_kept :
  (∀ (self : DatabaseUploader) (a b : string),
     table_exists self a = false →
     _test_for_eng_table_existence self [a; b] = [b])
  ∧ let self := {| conn := store_no_tables; testing := false |} in
    table_exists self "eng_0011_papa_19691201" = false
    ∧ table_exists self "eng_0012_papa_19700101" = false
    ∧ _get_engineering_table_names self "Papa" (1020, 1620)
      = ["eng_0012_papa_19700101"]
    ∧ update_table self frame_one_reading "Papa" ["sst"] []
      = (Raise (UndefinedTable "eng_0012_papa_19700101"), []).
Proof.
  split; [|cbn zeta; repeat split; reflexivity].
  intros self a b Ha. unfold _test_for_eng_table_existence.
  rewrite existence_loop_step. cbn [lookup list_lookup]. rewrite Ha.
  cbn [list_remove_first]. rewrite decide_True by done.
  by rewrite existence_loop_step.
Qed.

Lemma consecutive_missing_partition_kept_witness :
  _test_for_eng_table_existence {| conn := store_no_tables; testing := false |}
    ["eng_0011_papa_19691201"; "eng_0012_papa_19700101"]
  = ["eng_0012_papa_19700101"].
Proof.
  apply (proj1 consecutive_missing_partition_kept
           {| conn := store_no_tables; testing := false |}
           "eng_0011_papa_19691201" "eng_0012_papa_19700101").
  reflexivity.
Defined.

(** C9, as the code has it.  [find_closest] raises [AssertionError] on an
    argument that is not a numpy array and [IndexError] on an empty numpy
    array, and returns a value on every non-empty numpy array.  Nothing
    catches the exception: [align_arrays] raises it for a non-empty pivot
    array, the unit of a table and parameter without a positive value raises
    it, and [update_table] ends with what the first unit that raises has
    raised, whichever table and parameter that unit belongs to, with nothing
    executed after it. *)
Theorem find_closest_failure_propagates :
  (∀ (dt : dtype) (l : list Z) (pivot : Z),
     find_closest dt (PyList l) pivot = Raise AssertionError)
  ∧ (∀ (dt : dtype) (pivot : Z), find_closest dt (NdArray []) pivot = Raise IndexError)
  ∧ (∀ (dt : dtype) (l : list Z) (pivot : Z),
       l ≠ [] → ∃ v, find_closest dt (NdArray l) pivot = OK v)
  ∧ (∀ (dt : dtype) (search_array : array_like) (p : Z) (pivots : list Z)
       (max_dist : option Z),
       elements_of search_array = [] →
       align_arrays dt search_array (NdArray (p :: pivots)) max_dist
       = Raise IndexError)
  ∧ (∀ (self : DatabaseUploader) (data : DataFrame) (date_range : Z * Z)
       (eng_table p : string) (h : Z) (hdrtimes : list Z) (log : list db_event),
       p ∈ df_columns data →
       (∀ r, r ∈ df_rows data → PrimFloat.ltb 0 (cell r p) = false) →
       fetch_hdrtimes self
         (generate_hdrtime_query eng_table date_range.1 date_range.2)
       = OK (h :: hdrtimes) →
       update_unit self data date_range eng_table p log = (Raise IndexError, log))
  ∧ (∀ (self : DatabaseUploader) (data : DataFrame) (station_name : string)
       (date_range : Z * Z)
       (tables_before : list string) (eng_table : string)
       (tables_after : list string)
       (parameters_before : list string) (p : string)
       (parameters_after : list string)
       (e : exn) (log log1 log2 log3 : list db_event),
       let parameters := parameters_before ++ p :: parameters_after in
       _get_date_range data = OK date_range →
       _get_engineering_table_names self station_name date_range
       = tables_before ++ eng_table :: tables_after →
       for_each tables_before (λ t,
         for_each parameters (λ q, update_unit self data date_range t q)) log
       = (OK tt, log1) →
       for_each parameters_before (λ q,
         update_unit self data date_range eng_table q) log1
       = (OK tt, log2) →
       update_unit self data date_range eng_table p log2 = (Raise e, log3) →
       update_table self data station_name parameters log = (Raise e, log3)).
Proof.
  split; [done|]. split; [done|]. split; [intros; by apply find_closest_total|].
  split; [|split].
  - intros dt sa p pivots md Hnil. unfold align_arrays. rewrite Hnil.
    cbn [is_ndarray elements_of]. by destruct md.
  - intros self data date_range eng_table p h hdrtimes log Hp Hneg Hfetch.
    unfold update_unit, io_bind, lift, positive_rows.
    rewrite bool_decide_true by done.
    rewrite (filter_none _ (df_rows data))
      by (intros r Hr; rewrite (Hneg r Hr); done).
    unfold _get_hdrtimes_and_aligned_times. by rewrite Hfetch.
  - intros self data station_name date_range tables_before eng_table tables_after
      parameters_before p parameters_after e log log1 log2 log3 parameters
      Hdr Hnames Hbefore Hparams Hunit.
    unfold update_table, io_bind, lift. rewrite Hdr, Hnames.
    rewrite for_each_app, Hbefore.
    rewrite (for_each_raise _ eng_table tables_after e log1 log3); [done|].
    unfold parameters. rewrite for_each_app, Hparams.
    by apply for_each_raise.
Qed.

Lemma find_closest_failure_propagates_witness :
  let self := {| conn := store_one_header; testing := false |} in
  (∃ v, find_closest int64 (NdArray [10; 20; 30]) 15 = OK v)
  ∧ align_arrays int64 (PyList []) (NdArray [5]) None = Raise IndexError
  ∧ update_unit self frame_no_valid_sst (1020, 1620)
      "eng_0012_papa_19700101" "sst" [] = (Raise IndexError, [])
  ∧ update_table self frame_no_valid_sst "Papa" ["sst"; "sss"] []
    = (Raise IndexError, [])
  ∧ update_table self frame_no_valid_sst "Papa" ["sss"; "sst"] []
    = (Raise IndexError,
       [Execute (UpdateSql "eng_0012_papa_19700101" "sal") 33.5 0; Commit]).
Proof.
  cbn zeta.
  destruct find_closest_failure_propagates as (_ & _ & Htotal & Halign & Hunit & Hpass).
  assert (Hu : ∀ log,
             update_unit {| conn := store_one_header; testing := false |}
               frame_no_valid_sst (1020, 1620) "eng_0012_papa_19700101" "sst" log
             = (Raise IndexError, log)).
  { intros log. apply (Hunit _ _ _ _ _ 0 []).
    - by left.
    - intros r Hr. cbn in Hr. by apply list_elem_of_singleton in Hr as ->.
    - reflexivity. }
  split; [by apply Htotal|]. split; [by apply Halign|]. split; [apply Hu|].
  split.
  - apply (Hpass _ _ _ (1020, 1620) [] "eng_0012_papa_19700101" []
             [] "sst" ["sss"] IndexError [] [] [] []);
      [reflexivity..|apply Hu].
  - apply (Hpass _ _ _ (1020, 1620) [] "eng_0012_papa_19700101" []
             ["sss"] "sst" [] IndexError [] []
             [Execute (UpdateSql "eng_0012_papa_19700101" "sal") 33.5 0; Commit]);
      [reflexivity..|apply Hu].
Defined.

(** C9 as stated fails: the failed alignment of [sst], which has no positive
    value, ends the whole call, and [sss] is never processed, although alone
    it is updated. *)
Lemma failed_alignment_ends_the_pass :
  let self := {| conn := store_one_header; testing := false |} in
  update_table self frame_no_valid_sst "Papa" ["sst"; "sss"] []
  = (Raise IndexError, [])
  ∧ (update_table self frame_no_valid_sst "Papa" ["sss"] []).2
    = [Execute (UpdateSql "eng_0012_papa_19700101" "sal") 33.5 0; Commit].
Proof. cbn zeta. split; reflexivity. Qed.

(** C10 is not what the code does for a match at the zero time stamp.  The
    keys and the values handed to [run_update_sql] do have the same length,
    for both are filtered by the truth of the same alignment entries.  But the
    header time 60 s is aligned with the reading at 0 s, 18 minutes from its
    offset time; [if atime] takes the zero for false, and no update is
    executed for an alignment result that is not [None]. *)
Theorem match_at_zero_time_dropped :
  (∀ (self : DatabaseUploader) (eng_table p : string) (date_range : Z * Z)
     (sub_data : DataFrame) (hdrtimes : list Z) (aligned : list (option Z))
     (param_data : list float),
     _get_hdrtimes_and_aligned_times self eng_table date_range sub_data
     = OK (hdrtimes, aligned) →
     comprehension (loc sub_data p) (filter (λ dtime, truthy dtime = true) aligned)
     = OK param_data →
     length ((filter (λ ha, truthy ha.2 = true) (zip hdrtimes aligned)).*1)
     = length param_data)
  ∧ let self := {| conn := store_header_60; testing := false |} in
    _get_hdrtimes_and_aligned_times self "eng_0012_papa_19700101" (0, 600)
      frame_reading_at_zero
    = OK ([60], [Some 0])
    ∧ (update_table self frame_reading_at_zero "Papa" ["sst"] []).2 = [Commit].
Proof.
  split; [|cbn zeta; split; reflexivity].
  intros self eng_table p date_range sub_data hdrtimes aligned param_data Hha Hvs.
  apply (update_lists_same_length sub_data p); [|done].
  destruct (hdrtimes_and_aligned_inv _ _ _ _ _ _ Hha) as [_ Halign].
  apply align_arrays_inv, Forall2_length in Halign.
  by rewrite length_fmap in Halign.
Qed.

Lemma match_at_zero_time_dropped_witness :
  length ((filter (λ ha, truthy ha.2 = true) (zip [60] [Some 0])).*1)
  = length (@nil float).
Proof.
  apply (proj1 match_at_zero_time_dropped
           {| conn := store_header_60; testing := false |}
           "eng_0012_papa_19700101" "sst" (0, 600) frame_reading_at_zero
           [60] [Some 0] []); reflexivity.
Defined.

(** ** Further properties of the aligner *)

Lemma merge_sort_perm_eq (l1 l2 : list Z) :
  l1 ≡ₚ l2 → merge_sort Z.le l1 = merge_sort Z.le l2.
Proof.
  intros Hperm. apply (Sorted_unique Z.le).
  - apply (Sorted_merge_sort Z.le).
  - apply (Sorted_merge_sort Z.le).
  - by rewrite !merge_sort_Permutation.
Qed.

(** X1. The result of [align_arrays] does not depend on the order of the
    search array, nor on whether it is a numpy array or a list: two search
    arrays with the same elements, each as often, give the same outcome for
    every pivot array and tolerance. *)
Theorem align_arrays_search_order_irrelevant (dt : dtype)
    (search_array search_array' pivot_array : array_like) (max_dist : option Z) :
  elements_of search_array ≡ₚ elements_of search_array' →
  align_arrays dt search_array pivot_array max_dist
  = align_arrays dt search_array' pivot_array max_dist.
Proof.
  intros Hperm. unfold align_arrays. by rewrite (merge_sort_perm_eq _ _ Hperm).
Qed.

Lemma align_arrays_search_order_irrelevant_witness :
  align_arrays int64 (NdArray [30; 10; 20]) (NdArray [5; 15; 25; 100]) (Some 5)
  = align_arrays int64 (PyList [10; 20; 30]) (NdArray [5; 15; 25; 100]) (Some 5).
Proof.
  apply (align_arrays_search_order_irrelevant int64
           (NdArray [30; 10; 20]) (PyList [10; 20; 30])).
  cbn. apply (Permutation_cons_append [10; 20] 30).
Defined.

(** A pivot that is an element of a sorted array is its own nearest element,
    when its distances to the elements are computed exactly. *)
Lemma find_closest_exact (dt : dtype) (a : list Z) (p : Z) :
  Sorted Z.le a → p ∈ a →
  (∀ x, x ∈ a → absolute dt (subtract dt x p) = Z.abs (x - p)) →
  find_closest dt (NdArray a) p = OK p.
Proof.
  intros Hs Hin Hno.
  assert (Hne : a ≠ []) by (intros ->; by apply elem_of_nil in Hin).
  destruct (find_closest_sorted_nearest dt a p Hne Hs Hno) as (v & Hv & _ & Hmin).
  specialize (Hmin p Hin). rewrite Hv. f_equal. lia.
Qed.

Lemma align_entry_exact (dt : dtype) (search_array : list Z)
    (max_dist : option Z) (p : Z) :
  p ∈ search_array →
  (∀ x, x ∈ search_array → absolute dt (subtract dt x p) = Z.abs (x - p)) →
  (∀ d, max_dist = Some d → 0 ≤ d) →
  align_entry dt (NdArray (merge_sort Z.le search_array)) max_dist p = OK (Some p).
Proof.
  intros Hin Hno Hd. unfold align_entry, closest_within_distance.
  rewrite find_closest_exact;
    [|apply (Sorted_merge_sort Z.le)|by rewrite merge_sort_Permutation
     |intros x Hx; apply Hno; by rewrite merge_sort_Permutation in Hx].
  destruct max_dist as [d|]; cbn; [|done].
  rewrite (Hno p) by done.
  specialize (Hd d eq_refl). rewrite bool_decide_true by lia. done.
Qed.





(** ** Further properties of the driver: the shape of the log *)

(** A property of stretches of the log that holds of the empty stretch and of
    concatenations holds of what a loop appends, when it holds of what each
    round appends; whether the loop ends normally or not. *)
Lemma for_each_log_invariant {A} (P : list db_event → Prop)
    (body : A → io unit) (l : list A) :
  P [] →
  (∀ a b, P a → P b → P (a ++ b)) →
  (∀ x log, x ∈ l → ∃ new, (body x log).2 = log ++ new ∧ P new) →
  ∀ log, ∃ new, (for_each l body log).2 = log ++ new ∧ P new.
Proof.
  intros Hnil Happ. induction l as [|x l IH]; intros Hbody log.
  - exists []. by rewrite app_nil_r.
  - cbn. unfold io_bind.
    destruct (Hbody x log) as (new1 & Hlog1 & HP1); [left|].
    destruct (body x log) as [[u|e] log1]; cbn in Hlog1; subst log1.
    + destruct (IH (λ y lg Hy, Hbody y lg (list_elem_of_further _ _ _ Hy))
                  (log ++ new1)) as (new2 & Hlog2 & HP2).
      exists (new1 ++ new2). rewrite Hlog2. by rewrite (assoc_L (++)); auto.
    + by exists new1.
Qed.

(** A loop that ends normally has run every round normally. *)
Lemma for_each_ok_each {A} (body : A → io unit) (l : list A) log log' :
  for_each l body log = (OK tt, log') →
  ∀ x, x ∈ l → ∃ log1 log2, body x log1 = (OK tt, log2).
Proof.
  revert log. induction l as [|y l IH]; intros log Hrun x Hx;
    [by apply elem_of_nil in Hx|].
  cbn in Hrun. unfold io_bind in Hrun.
  destruct (body y log) as [[[]|e] log1] eqn:Hy; [|done].
  apply elem_of_cons in Hx as [->|Hx]; [by eauto|by eapply IH].
Qed.

Lemma commits_app (a b : list db_event) : commits (a ++ b) = (commits a + commits b)%nat.
Proof. unfold commits. by rewrite filter_app, length_app. Qed.

(** Commits add up over the rounds of a loop that ends normally. *)
Lemma for_each_commits {A} (body : A → io unit) (l : list A) (k : nat) :
  (∀ x log log', x ∈ l → body x log = (OK tt, log') →
                 ∃ new, log' = log ++ new ∧ commits new = k) →
  ∀ log log', for_each l body log = (OK tt, log') →
              ∃ new, log' = log ++ new ∧ commits new = (length l * k)%nat.
Proof.
  induction l as [|x l IH]; intros Hbody log log' Hrun.
  - injection Hrun as <-. exists []. by rewrite app_nil_r.
  - cbn in Hrun. unfold io_bind in Hrun.
    destruct (body x log) as [[[]|e] log1] eqn:Hx; [|done].
    destruct (Hbody x log log1) as (new1 & -> & Hk1); [left|done|].
    destruct (IH (λ y lg lg' Hy, Hbody y lg lg' (list_elem_of_further _ _ _ Hy))
                _ _ Hrun) as (new2 & -> & Hk2).
    exists (new1 ++ new2). split; [by rewrite (assoc_L (++))|].
    rewrite commits_app, Hk1, Hk2. cbn. lia.
Qed.

Lemma comprehension_inv {A B} (f : A → result B) (l : list A) (vs : list B) :
  comprehension f l = OK vs → Forall2 (λ a v, f a = OK v) l vs.
Proof.
  revert vs. induction l as [|a l IH]; intros vs; cbn.
  - intros [= <-]. constructor.
  - destruct (f a) as [v|] eqn:Ha; [|done]. cbn.
    destruct (comprehension f l) as [ws|]; [|done]. cbn.
    intros [= <-]. constructor; [done|by apply IH].
Qed.

(** The two outcomes of the unit of a table and a parameter. *)
Lemma update_unit_outcome (self : DatabaseUploader) (data : DataFrame)
    (date_range : Z * Z) (eng_table p : string) (log : list db_event) :
  (∃ e, update_unit self data date_range eng_table p log = (Raise e, log))
  ∨ ∃ sub_data hdrtimes aligned col param_data,
      positive_rows data p = OK sub_data
      ∧ _get_hdrtimes_and_aligned_times self eng_table date_range sub_data
        = OK (hdrtimes, aligned)
      ∧ comprehension (loc sub_data p)
          (filter (λ dtime, truthy dtime = true) aligned) = OK param_data
      ∧ parameter_mapping !! p = Some col
      ∧ update_unit self data date_range eng_table p log
        = (OK tt,
           (log ++ ((λ dv, Execute (UpdateSql eng_table col) dv.2 dv.1)
                    <$> zip ((filter (λ ha, truthy ha.2 = true)
                                (zip hdrtimes aligned)).*1) param_data))
           ++ [Commit]).
Proof.
  destruct (positive_rows data p) as [sub_data|e] eqn:Hsub;
    [|left; exists e; unfold update_unit, io_bind, lift; by rewrite Hsub].
  destruct (_get_hdrtimes_and_aligned_times self eng_table date_range sub_data)
    as [[hdrtimes aligned]|e] eqn:Hha;
    [|left; exists e; unfold update_unit, io_bind, lift; by rewrite Hsub, Hha].
  destruct (comprehension (loc sub_data p)
              (filter (λ dtime, truthy dtime = true) aligned))
    as [param_data|e] eqn:Hvs;
    [|left; exists e; unfold update_unit, io_bind, lift; by rewrite Hsub, Hha, Hvs].
  destruct (parameter_mapping !! p) as [col|] eqn:Hcol.
  - right. exists sub_data, hdrtimes, aligned, col, param_data.
    do 4 (split; [done|]).
    unfold update_unit, io_bind, lift. rewrite Hsub, Hha, Hvs.
    unfold mapped_parameter. rewrite Hcol. unfold generate_update_sql.
    rewrite bool_decide_true by (by apply (parameter_mapping_columns p)).
    rewrite run_update_sql_log; [done|].
    destruct (hdrtimes_and_aligned_inv _ _ _ _ _ _ Hha) as [Hfetch _].
    by apply fetch_hdrtimes_table in Hfetch.
  - left. exists (KeyError p). unfold update_unit, io_bind, lift.
    rewrite Hsub, Hha, Hvs. unfold mapped_parameter. by rewrite Hcol.
Qed.

(** What a unit that returns has appended to the log. *)
Lemma update_unit_ok_shape (self : DatabaseUploader) (data : DataFrame)
    (date_range : Z * Z) (eng_table p : string) (log log' : list db_event) :
  update_unit self data date_range eng_table p log = (OK tt, log') →
  ∃ col updates,
    parameter_mapping !! p = Some col
    ∧ log' = (log ++ updates) ++ [Commit]
    ∧ commits updates = 0%nat
    ∧ ∀ ev, ev ∈ updates → ∃ v h, ev = Execute (UpdateSql eng_table col) v h.
Proof.
  intros Hrun.
  destruct (update_unit_outcome self data date_range eng_table p log)
    as [[e He]|(sub_data & hdrtimes & aligned & col & vs & _ & _ & _ & Hcol & Hok)];
    [congruence|].
  rewrite Hok in Hrun. injection Hrun as <-.
  exists col. eexists. split; [done|]. split; [done|]. split.
  - unfold commits. rewrite filter_none; [done|].
    intros ev (dv & -> & _)%list_elem_of_fmap. done.
  - intros ev (dv & -> & _)%list_elem_of_fmap. by exists dv.2, dv.1.
Qed.

(** X4. When the unit of a table and a parameter returns, what it has
    executed is a run of updates, all of them on its own table and on the one
    column, [sst] or [sal], that [parameter_mapping] has for its parameter,
    and then one commit, which is its last statement. *)
Theorem update_unit_returns_after_one_commit (self : DatabaseUploader)
    (data : DataFrame) (date_range : Z * Z) (eng_table p : string)
    (log log' : list db_event) :
  update_unit self data date_range eng_table p log = (OK tt, log') →
  ∃ col updates,
    parameter_mapping !! p = Some col
    ∧ (col = "sst" ∨ col = "sal")
    ∧ log' = (log ++ updates) ++ [Commit]
    ∧ commits updates = 0%nat
    ∧ ∀ ev, ev ∈ updates → ∃ v h, ev = Execute (UpdateSql eng_table col) v h.
Proof.
  intros Hrun.
  destruct (update_unit_ok_shape _ _ _ _ _ _ _ Hrun)
    as (col & updates & Hcol & Hlog & Hnone & Hupd).
  exists col, updates. split; [done|].
  split; [by apply (parameter_mapping_columns p)|]. done.
Qed.

Lemma update_unit_returns_after_one_commit_witness :
  ∃ col updates,
    parameter_mapping !! "sss" = Some col
    ∧ (col = "sst" ∨ col = "sal")
    ∧ [Execute (UpdateSql "eng_0012_papa_19700101" "sal") 33.5 0; Commit]
      = ([] ++ updates) ++ [Commit]
    ∧ commits updates = 0%nat
    ∧ ∀ ev, ev ∈ updates →
        ∃ v h, ev = Execute (UpdateSql "eng_0012_papa_19700101" col) v h.
Proof.
  apply (update_unit_returns_after_one_commit
           {| conn := store_one_header; testing := false |}
           frame_no_valid_sst (1020, 1620) "eng_0012_papa_19700101" "sss" []).
  reflexivity.
Defined.

(** ** Further properties of the driver: what is written *)

Lemma loc_inv (data : DataFrame) (p : string) (dtime : option Z) (v : float) :
  loc data p dtime = OK v →
  ∃ r, dtime = Some (datetime r) ∧ r ∈ df_rows data ∧ v = cell r p.
Proof.
  unfold loc. case_bool_decide; [|done]. destruct dtime as [t|]; [|done].
  destruct (filter _ _) as [|r [|r' rows]] eqn:Hf; [done| |done].
  intros [= <-]. exists r.
  assert (Hr : r ∈ filter (λ r, datetime r = t) (df_rows data))
    by (rewrite Hf; left).
  apply list_elem_of_filter in Hr as [<- Hr]. done.
Qed.

Lemma align_entry_close (sa : array_like) (d p t : Z) :
  align_entry datetime64 sa (Some d) p = OK (Some t) → Z.abs (t - p) ≤ d.
Proof.
  unfold align_entry, closest_within_distance, rbind.
  destruct (find_closest _ sa p) as [v|]; [|done].
  case_bool_decide; [|done]. by intros [= <-].
Qed.

Lemma fetch_hdrtimes_inv (self : DatabaseUploader) (q : hdrtime_query)
    (hdrtimes : list Z) :
  fetch_hdrtimes self q = OK hdrtimes →
  ∃ hdrtime_column,
    eng_tables (conn self) !! hq_table q = Some hdrtime_column
    ∧ Sorted Z.le hdrtimes
    ∧ ∀ h, h ∈ hdrtimes ↔ h ∈ hdrtime_column ∧ hq_start q ≤ h ≤ hq_end q.
Proof.
  unfold fetch_hdrtimes.
  destruct (eng_tables (conn self) !! hq_table q) as [col|]; [|done].
  intros [= <-]. exists col. split; [done|]. split.
  - apply (Sorted_merge_sort Z.le).
  - intros h. rewrite merge_sort_Permutation, list_elem_of_filter. tauto.
Qed.

Lemma update_unit_writes_matches (self : DatabaseUploader) (data : DataFrame)
    (date_range : Z * Z) (parameters : list string) (eng_table p : string)
    (log : list db_event) :
  p ∈ parameters →
  ∃ new, (update_unit self data date_range eng_table p log).2 = log ++ new
         ∧ Forall (close_positive_match self data date_range parameters) new.
Proof.
  intros Hp.
  destruct (update_unit_outcome self data date_range eng_table p log)
    as [[e He]|(sub_data & hdrtimes & aligned & col & vs
                & Hsub & Hha & Hvs & Hcol & Hrun)].
  { exists []. rewrite He. split; [by rewrite app_nil_r|constructor]. }
  rewrite Hrun. cbn [snd]. rewrite <- (assoc_L (++)). eexists. split; [done|].
  apply Forall_app. split; [|by repeat constructor].
  destruct (positive_rows_inv _ _ _ Hsub) as (_ & Hrows & _).
  destruct (hdrtimes_and_aligned_inv _ _ _ _ _ _ Hha) as [Hfetch Halign].
  apply fetch_hdrtimes_inv in Hfetch as (column & Htable & _ & Hhdr).
  apply align_arrays_inv in Halign. cbn [elements_of] in Halign.
  assert (Hlen : length hdrtimes = length aligned).
  { apply Forall2_length in Halign. by rewrite length_fmap in Halign. }
  apply comprehension_inv in Hvs.
  rewrite <- (filter_zip_snd (λ a, truthy a = true) hdrtimes aligned Hlen) in Hvs.
  set (F := filter (λ ha, truthy ha.2 = true) (zip hdrtimes aligned)) in *.
  assert (HF : ∀ ha, ha ∈ F → ha ∈ zip hdrtimes aligned)
    by (intros ha Hin; by apply list_elem_of_filter in Hin as [_ ?]).
  clearbody F. apply Forall_forall. intros ev (dv & -> & Hdv)%list_elem_of_fmap.
  apply list_elem_of_lookup in Hdv as [i Hi].
  apply lookup_zip_with_Some in Hi as (h & v & -> & Hh & Hv). cbn.
  apply list_lookup_fmap_Some in Hh as ([h' a] & -> & HFi). cbn.
  assert (Ha : F.*2 !! i = Some a) by (by rewrite list_lookup_fmap, HFi).
  destruct (Forall2_lookup_r _ _ _ _ _ Hvs Hv) as (a' & Ha' & Hloc).
  assert (a' = a) as -> by congruence.
  apply loc_inv in Hloc as (r & -> & Hr & ->).
  apply Hrows in Hr as [Hr Hpos].
  assert (Hzip : (h', Some (datetime r)) ∈ zip hdrtimes aligned)
    by (apply HF; by eapply list_elem_of_lookup_2).
  apply list_elem_of_lookup in Hzip as [j Hj].
  apply lookup_zip_with_Some in Hj as (h'' & a'' & [= <- <-] & Hhj & Haj).
  destruct (Forall2_lookup_r _ _ _ _ _ Halign Haj) as (pv & Hpv & Hentry).
  apply list_lookup_fmap_Some in Hpv as (h'' & -> & Hhj').
  assert (h'' = h') as -> by congruence.
  apply align_entry_close in Hentry.
  assert (Hin : h' ∈ hdrtimes) by (by eapply list_elem_of_lookup_2).
  apply Hhdr in Hin as [Hcolumn Hwindow].
  exists p, r, column. cbn in Hwindow. repeat split; (done || apply Hwindow).
Qed.

(** X5. [update_table] only appends to the log, and whatever its outcome,
    every update it has executed is a close positive match: its table exists
    in the store and its key is a header time of that table inside the query
    window; its column is the mapped name of a requested parameter; its value
    is the value of a sensor row for that parameter, strictly positive, and
    the time of that row is at most 20 minutes from the key moved by 17
    minutes.  No sentinel value and no distant reading is ever written. *)
Theorem update_table_writes_only_matches (self : DatabaseUploader)
    (data : DataFrame) (station_name : string) (parameters : list string)
    (log : list db_event) :
  ∃ new,
    (update_table self data station_name parameters log).2 = log ++ new
    ∧ ∀ date_range, _get_date_range data = OK date_range →
        Forall (close_positive_match self data date_range parameters) new.
Proof.
  unfold update_table, io_bind, lift.
  destruct (_get_date_range data) as [dr|e] eqn:Hdr.
  2:{ exists []. split; [by rewrite app_nil_r|]. intros ? [=]. }
  destruct (for_each_log_invariant
              (Forall (close_positive_match self data dr parameters))
              (λ eng_table, for_each parameters
                 (λ p, update_unit self data dr eng_table p))
              (_get_engineering_table_names self station_name dr))
    with (log := log) as (new & Hnew & Hall).
  - constructor.
  - intros a b Ha Hb. by apply Forall_app.
  - intros eng_table lg _.
    apply (for_each_log_invariant
             (Forall (close_positive_match self data dr parameters))).
    + constructor.
    + intros a b Ha Hb. by apply Forall_app.
    + intros p lg' Hp. by apply update_unit_writes_matches.
  - exists new. split; [|by intros ? [= <-]].
    destruct (for_each _ _ log) as [[[]|e] log1]; cbn in Hnew; subst log1; [|done].
    by destruct (comprehension mapped_parameter parameters).
Qed.

Lemma update_table_writes_only_matches_witness :
  ∃ new,
    (update_table {| conn := store_two_headers; testing := false |}
       frame_one_reading "Papa" ["sst"] []).2 = [] ++ new
    ∧ ∀ date_range, _get_date_range frame_one_reading = OK date_range →
        Forall (close_positive_match {| conn := store_two_headers; testing := false |}
                  frame_one_reading date_range ["sst"]) new.
Proof.
  exact (update_table_writes_only_matches
           {| conn := store_two_headers; testing := false |}
           frame_one_reading "Papa" ["sst"] []).
Defined.

Lemma update_unit_ok_commits (self : DatabaseUploader) (data : DataFrame)
    (date_range : Z * Z) (eng_table p : string) (log log' : list db_event) :
  update_unit self data date_range eng_table p log = (OK tt, log') →
  ∃ new, log' = log ++ new ∧ commits new = 1%nat.
Proof.
  intros Hrun.
  destruct (update_unit_ok_shape _ _ _ _ _ _ _ Hrun)
    as (col & updates & _ & -> & Hnone & _).
  exists (updates ++ [Commit]). split; [by rewrite (assoc_L (++))|].
  rewrite commits_app, Hnone. reflexivity.
Qed.

Lemma update_unit_ok_table_exists (self : DatabaseUploader) (data : DataFrame)
    (date_range : Z * Z) (eng_table p : string) (log log' : list db_event) :
  update_unit self data date_range eng_table p log = (OK tt, log') →
  table_exists self eng_table = true.
Proof.
  intros Hrun.
  destruct (update_unit_outcome self data date_range eng_table p log)
    as [[e He]|(sub_data & hdrtimes & aligned & col & vs & _ & Hha & _)];
    [congruence|].
  destruct (hdrtimes_and_aligned_inv _ _ _ _ _ _ Hha) as [Hfetch _].
  apply fetch_hdrtimes_inv in Hfetch as (column & Htable & _).
  unfold table_exists. apply bool_decide_eq_true. by eexists.
Qed.

(** X6. When [update_table] returns, the log has grown by exactly one commit
    for each pair of a resolved table and a requested parameter; the metadata
    hold the station as given, the date range of the frame, the resolved
    tables and, position by position, the mapped names of the parameters; and
    if a parameter was requested, every table listed in the metadata exists
    in the store. *)
Theorem update_table_commits_every_unit (self : DatabaseUploader)
    (data : DataFrame) (station_name : string) (parameters : list string)
    (log log' : list db_event) (metadata : Metadata) :
  update_table self data station_name parameters log = (OK metadata, log') →
  ∃ new,
    log' = log ++ new
    ∧ commits new
      = (length (md_engineering_tables metadata) * length parameters)%nat
    ∧ md_station metadata = station_name
    ∧ _get_date_range data = OK (md_date_range metadata)
    ∧ md_engineering_tables metadata
      = _get_engineering_table_names self station_name (md_date_range metadata)
    ∧ Forall2 (λ p c, parameter_mapping !! p = Some c)
              parameters (md_parameter metadata)
    ∧ (parameters ≠ [] →
       ∀ eng_table, eng_table ∈ md_engineering_tables metadata →
                    table_exists self eng_table = true).
Proof.
  unfold update_table, io_bind, lift.
  destruct (_get_date_range data) as [dr|] eqn:Hdr; [|done].
  destruct (for_each _ _ log) as [[[]|e] log1] eqn:Hloop; [|done].
  destruct (comprehension mapped_parameter parameters) as [mapped|] eqn:Hmap;
    [|done].
  intros [= <- <-]. cbn.
  assert (Hinner : ∀ eng_table lg lg',
            for_each parameters (λ p, update_unit self data dr eng_table p) lg
            = (OK tt, lg') →
            ∃ new, lg' = lg ++ new ∧ commits new = (length parameters * 1)%nat).
  { intros eng_table.
    apply (for_each_commits (λ p, update_unit self data dr eng_table p)).
    intros p lg1 lg2 _ Hunit. by eapply update_unit_ok_commits. }
  destruct (for_each_commits
              (λ eng_table, for_each parameters
                 (λ p, update_unit self data dr eng_table p))
              (_get_engineering_table_names self station_name dr)
              (length parameters * 1)
              (λ eng_table lg lg' _, Hinner eng_table lg lg')
              _ _ Hloop) as (new & -> & Hcount).
  exists new. split; [done|]. split; [rewrite Hcount; lia|].
  do 3 (split; [done|]). split.
  - apply comprehension_inv in Hmap.
    eapply Forall2_impl; [exact Hmap|]. intros p c. unfold mapped_parameter.
    destruct (parameter_mapping !! p); [|done]. by intros [= ->].
  - intros Hne eng_table Hin.
    destruct (for_each_ok_each _ _ _ _ Hloop eng_table Hin) as (lg1 & lg2 & Hround).
    destruct parameters as [|p ps]; [done|].
    destruct (for_each_ok_each _ _ _ _ Hround p ltac:(left)) as (lg3 & lg4 & Hunit).
    by eapply update_unit_ok_table_exists.
Qed.

Lemma update_table_commits_every_unit_witness :
  ∃ new,
    [Execute (UpdateSql "eng_0012_papa_19700101" "sst") 5.5 0;
     Execute (UpdateSql "eng_0012_papa_19700101" "sst") 5.5 60;
     Commit] = [] ++ new
    ∧ commits new = (length ["eng_0012_papa_19700101"] * length ["sst"])%nat
    ∧ "Papa" = "Papa"
    ∧ _get_date_range frame_one_reading = OK (1020, 1620)
    ∧ ["eng_0012_papa_19700101"]
      = _get_engineering_table_names
          {| conn := store_two_headers; testing := false |} "Papa" (1020, 1620)
    ∧ Forall2 (λ p c, parameter_mapping !! p = Some c) ["sst"] ["sst"]
    ∧ (["sst"] ≠ [] →
       ∀ eng_table, eng_table ∈ ["eng_0012_papa_19700101"] →
                    table_exists {| conn := store_two_headers; testing := false |}
                      eng_table = true).
Proof.
  apply (update_table_commits_every_unit
           {| conn := store_two_headers; testing := false |}
           frame_one_reading "Papa" ["sst"] [] _
           {| md_station := "Papa"; md_parameter := ["sst"];
              md_date_range := (1020, 1620);
              md_engineering_tables := ["eng_0012_papa_19700101"] |}).
  reflexivity.
Defined.

(** X7. When [update_table] returns, no update is left uncommitted: what it
    has appended to the log is nothing at all or ends with a commit. *)
Theorem update_table_returns_with_all_committed (self : DatabaseUploader)
    (data : DataFrame) (station_name : string) (parameters : list string)
    (log log' : list db_event) (metadata : Metadata) :
  update_table self data station_name parameters log = (OK metadata, log') →
  ∃ new, log' = log ++ new ∧ (new = [] ∨ last new = Some Commit).
Proof.
  set (P := λ new : list db_event, new = [] ∨ last new = Some Commit).
  assert (Happ : ∀ a b, P a → P b → P (a ++ b)).
  { intros a b Ha [->|Hb]; [by rewrite app_nil_r|].
    right. destruct b as [|ev b] using rev_ind; [done|].
    rewrite (assoc_L (++)), last_snoc. by rewrite last_snoc in Hb. }
  assert (Hloop : ∀ {A} (body : A → io unit) (l : list A),
            (∀ x lg lg', body x lg = (OK tt, lg') → ∃ new, lg' = lg ++ new ∧ P new) →
            ∀ lg lg', for_each l body lg = (OK tt, lg') →
                      ∃ new, lg' = lg ++ new ∧ P new).
  { intros A body l Hbody. induction l as [|x l IH]; intros lg lg' Hrun.
    - injection Hrun as <-. exists []. split; [by rewrite app_nil_r|by left].
    - cbn in Hrun. unfold io_bind in Hrun.
      destruct (body x lg) as [[[]|e] lg1] eqn:Hx; [|done].
      destruct (Hbody _ _ _ Hx) as (new1 & -> & HP1).
      destruct (IH _ _ Hrun) as (new2 & -> & HP2).
      exists (new1 ++ new2). split; [by rewrite (assoc_L (++))|by apply Happ]. }
  unfold update_table, io_bind, lift.
  destruct (_get_date_range data) as [dr|e] eqn:Hdr; [|done].
  destruct (for_each _ _ log) as [[[]|e] log1] eqn:Hrun; [|done].
  destruct (comprehension mapped_parameter parameters); [|done].
  intros [= _ <-].
  apply (Hloop _ _ _) in Hrun; [done|].
  intros eng_table lg lg'. apply Hloop.
  intros p lg1 lg2 Hunit.
  destruct (update_unit_ok_shape _ _ _ _ _ _ _ Hunit)
    as (col & updates & _ & -> & _ & _).
  exists (updates ++ [Commit]). split; [by rewrite (assoc_L (++))|].
  right. by rewrite last_snoc.
Qed.

Lemma update_table_returns_with_all_committed_witness :
  ∃ new,
    [Execute (UpdateSql "eng_0012_papa_19700101" "sst") 5.5 0;
     Execute (UpdateSql "eng_0012_papa_19700101" "sst") 5.5 60;
     Commit] = [] ++ new
    ∧ (new = [] ∨ last new = Some Commit).
Proof.
  apply (update_table_returns_with_all_committed
           {| conn := store_two_headers; testing := false |}
           frame_one_reading "Papa" ["sst"] [] _
           {| md_station := "Papa"; md_parameter := ["sst"];
              md_date_range := (1020, 1620);
              md_engineering_tables := ["eng_0012_papa_19700101"] |}).
  reflexivity.
Defined.

Lemma comprehension_unmapped (parameters : list string) (p : string) :
  p ∈ parameters → parameter_mapping !! p = None →
  ∃ e, comprehension mapped_parameter parameters = Raise e.
Proof.
  induction parameters as [|q ps IH]; intros Hin Hnone;
    [by apply elem_of_nil in Hin|].
  cbn. apply elem_of_cons in Hin as [<-|Hin].
  - unfold mapped_parameter at 1. rewrite Hnone. by eexists.
  - destruct (mapped_parameter q); [|by eexists]. cbn.
    destruct (IH Hin Hnone) as [e ->]. by eexists.
Qed.

(** X8. A requested parameter that is not a key of [parameter_mapping] makes
    [update_table] raise, whatever the frame and the store: no metadata are
    returned, not even when no table is resolved or no header time is
    fetched. *)
Theorem update_table_unknown_parameter_raises (self : DatabaseUploader)
    (data : DataFrame) (station_name : string) (parameters : list string)
    (p : string) (log : list db_event) :
  p ∈ parameters →
  parameter_mapping !! p = None →
  ∃ e log', update_table self data station_name parameters log = (Raise e, log').
Proof.
  intros Hin Hnone. unfold update_table, io_bind, lift.
  destruct (_get_date_range data) as [dr|e]; [|by eexists _, _].
  destruct (for_each _ _ log) as [[[]|e] log1]; [|by eexists _, _].
  destruct (comprehension_unmapped parameters p Hin Hnone) as [e ->].
  by eexists _, _.
Qed.

Lemma update_table_unknown_parameter_raises_witness :
  ∃ e log',
    update_table {| conn := store_one_header; testing := false |}
      frame_no_valid_sst "Papa" ["sss"; "temp"] [] = (Raise e, log').
Proof.
  apply (update_table_unknown_parameter_raises _ _ _ _ "temp").
  - by right; left.
  - reflexivity.
Defined.

(** ** Further properties of the driver: resolving the tables *)

Lemma list_remove_first_middle (t : string) (pre rest : list string) :
  t ∉ pre → list_remove_first t (pre ++ t :: rest) = pre ++ rest.
Proof.
  induction pre as [|x pre IH]; intros Hnot; cbn.
  - by rewrite decide_True.
  - rewrite decide_False by (intros ->; apply Hnot; left).
    rewrite IH; [done|]. intros Hin. apply Hnot. by right.
Qed.

(** The loop on a list of distinct names, from position [length pre] on: the
    names before stay, and of the names from there on a sublist is kept that
    holds every existing one; where no two missing names follow each other,
    it holds nothing else. *)
Lemma existence_loop_distinct (self : DatabaseUploader) (n : nat) :
  ∀ pre suf : list string,
    (length suf ≤ n)%nat →
    NoDup (pre ++ suf) →
    ∃ kept,
      existence_loop self (length pre) (pre ++ suf) = pre ++ kept
      ∧ kept `sublist_of` suf
      ∧ (∀ t, t ∈ suf → table_exists self t = true → t ∈ kept)
      ∧ ((∀ (i : nat) a b, suf !! i = Some a → suf !! S i = Some b →
            table_exists self a = true ∨ table_exists self b = true) →
         kept = filter (λ t, table_exists self t = true) suf).
Proof.
  induction n as [|n IH]; intros pre suf Hlen Hnd.
  { destruct suf; [|cbn in Hlen; lia]. exists [].
    rewrite existence_loop_step, app_nil_r, lookup_ge_None_2 by done.
    split; [done|]. split; [done|].
    split; [intros t Ht; by apply elem_of_nil in Ht|done]. }
  destruct suf as [|t rest].
  { exists []. rewrite existence_loop_step, app_nil_r, lookup_ge_None_2 by done.
    split; [done|]. split; [done|].
    split; [intros t Ht; by apply elem_of_nil in Ht|done]. }
  cbn in Hlen. rewrite existence_loop_step, list_lookup_middle by done.
  destruct (table_exists self t) eqn:Ht.
  - (* the name exists: it stays, the loop goes on behind it *)
    destruct (IH (pre ++ [t]) rest ltac:(lia)) as (kept & Hrun & Hsub & Hex & Hexact).
    { by rewrite <- (assoc_L (++)). }
    rewrite length_app, Nat.add_1_r, <- (assoc_L (++)) in Hrun. cbn in Hrun.
    exists (t :: kept). rewrite Hrun. split; [by rewrite <- (assoc_L (++))|].
    split; [by apply sublist_skip|]. split.
    + intros u [->|Hu]%elem_of_cons Hexists; [left|right; by apply Hex].
    + intros Hadj. rewrite filter_cons_True by done. f_equal. apply Hexact.
      intros i a b Ha Hb. by apply (Hadj (S i)).
  - (* the name is missing: it is removed, and the next name is passed over *)
    assert (Hfresh : t ∉ pre).
    { apply NoDup_app in Hnd as (_ & Hdisj & _). intros Hin.
      apply (Hdisj t Hin). left. }
    rewrite list_remove_first_middle by done.
    destruct rest as [|u rest'].
    + exists []. rewrite existence_loop_step, app_nil_r.
      rewrite lookup_ge_None_2 by lia.
      split; [done|]. split; [apply sublist_nil_l|]. split.
      * intros v Hv%list_elem_of_singleton Hexists. congruence.
      * intros _. by rewrite filter_cons_False by congruence.
    + destruct (IH (pre ++ [u]) rest' ltac:(cbn in Hlen; lia))
        as (kept & Hrun & Hsub & Hex & Hexact).
      { rewrite <- (assoc_L (++)). cbn.
        apply NoDup_app in Hnd as (Hpre & Hdisj & Hsuf).
        apply NoDup_cons in Hsuf as [_ Hsuf].
        apply NoDup_app. split; [done|]. split; [|done].
        intros x Hx Hx'. apply (Hdisj x Hx). by right. }
      rewrite length_app, Nat.add_1_r, <- (assoc_L (++)) in Hrun. cbn in Hrun.
      exists (u :: kept). rewrite Hrun. split; [by rewrite <- (assoc_L (++))|].
      split; [by apply sublist_cons, sublist_skip|]. split.
      * intros v [->|[->|Hv]%elem_of_cons]%elem_of_cons Hexists;
          [congruence|left|right; by apply Hex].
      * intros Hadj. rewrite filter_cons_False by congruence.
        destruct (Hadj 0%nat t u eq_refl eq_refl) as [?|Hu]; [congruence|].
        rewrite filter_cons_True by done. f_equal. apply Hexact.
        intros i a b Ha Hb. by apply (Hadj (S (S i))).
Qed.

(** X9. On a list of distinct table names [_test_for_eng_table_existence]
    never drops a table that exists and never adds or reorders anything: its
    result is a sublist of the names it was given and holds every existing
    one. *)
Theorem existence_test_keeps_existing (self : DatabaseUploader)
    (engineering_tables : list string) :
  NoDup engineering_tables →
  _test_for_eng_table_existence self engineering_tables
    `sublist_of` engineering_tables
  ∧ ∀ eng_table,
      eng_table ∈ engineering_tables →
      table_exists self eng_table = true →
      eng_table ∈ _test_for_eng_table_existence self engineering_tables.
Proof.
  intros Hnd.
  destruct (existence_loop_distinct self (length engineering_tables)
              [] engineering_tables) as (kept & Hrun & Hsub & Hex & _);
    [done..|].
  unfold _test_for_eng_table_existence. cbn in Hrun. by rewrite Hrun.
Qed.

Lemma existence_test_keeps_existing_witness :
  _test_for_eng_table_existence {| conn := store_two_headers; testing := false |}
    ["eng_0011_papa_19691201"; "eng_0012_papa_19700101"]
    `sublist_of` ["eng_0011_papa_19691201"; "eng_0012_papa_19700101"]
  ∧ ∀ eng_table,
      eng_table ∈ ["eng_0011_papa_19691201"; "eng_0012_papa_19700101"] →
      table_exists {| conn := store_two_headers; testing := false |} eng_table
      = true →
      eng_table
      ∈ _test_for_eng_table_existence
          {| conn := store_two_headers; testing := false |}
          ["eng_0011_papa_19691201"; "eng_0012_papa_19700101"].
Proof.
  apply (existence_test_keeps_existing
           {| conn := store_two_headers; testing := false |}
           ["eng_0011_papa_19691201"; "eng_0012_papa_19700101"]).
  apply NoDup_cons. split; [|apply NoDup_singleton].
  intros Hin%list_elem_of_singleton. discriminate Hin.
Defined.

(** X10. [_test_for_eng_table_existence] does what its name says exactly when
    no two missing tables follow each other: on a list of distinct names in
    which of any two neighbours at least one exists, the result is the list
    of the existing tables, in order, so every table left in it exists. *)
Theorem existence_test_exact_without_missing_neighbours
    (self : DatabaseUploader) (engineering_tables : list string) :
  NoDup engineering_tables →
  (∀ (i : nat) a b,
     engineering_tables !! i = Some a → engineering_tables !! S i = Some b →
     table_exists self a = true ∨ table_exists self b = true) →
  _test_for_eng_table_existence self engineering_tables
  = filter (λ t, table_exists self t = true) engineering_tables
  ∧ ∀ eng_table,
      eng_table ∈ _test_for_eng_table_existence self engineering_tables →
      table_exists self eng_table = true.
Proof.
  intros Hnd Hadj.
  destruct (existence_loop_distinct self (length engineering_tables)
              [] engineering_tables) as (kept & Hrun & _ & _ & Hexact);
    [done..|].
  unfold _test_for_eng_table_existence. cbn in Hrun. rewrite Hrun, (Hexact Hadj).
  split; [done|]. by intros t [? _]%list_elem_of_filter.
Qed.

Lemma existence_test_exact_without_missing_neighbours_witness :
  _test_for_eng_table_existence {| conn := store_two_headers; testing := false |}
    ["eng_0011_papa_19691201"; "eng_0012_papa_19700101"]
  = filter (λ t, table_exists {| conn := store_two_headers; testing := false |} t
                 = true)
      ["eng_0011_papa_19691201"; "eng_0012_papa_19700101"]
  ∧ ∀ eng_table,
      eng_table
      ∈ _test_for_eng_table_existence
          {| conn := store_two_headers; testing := false |}
          ["eng_0011_papa_19691201"; "eng_0012_papa_19700101"] →
      table_exists {| conn := store_two_headers; testing := false |} eng_table
      = true.
Proof.
  apply (existence_test_exact_without_missing_neighbours
           {| conn := store_two_headers; testing := false |}
           ["eng_0011_papa_19691201"; "eng_0012_papa_19700101"]).
  - apply NoDup_cons. split; [|apply NoDup_singleton].
    intros Hin%list_elem_of_singleton. discriminate Hin.
  - intros [|[|i]] a b Ha Hb; [|done..].
    injection Hb as <-. by right.
Defined.

(** ** Further properties of the driver: which header times are reached *)

Lemma strftime_minute_bounds (t : Z) : t - 59 ≤ strftime_minute t ≤ t.
Proof.
  unfold strftime_minute, minute.
  pose proof (Z.div_mod t 60 ltac:(lia)). pose proof (Z.mod_pos_bound t 60 ltac:(lia)).
  lia.
Qed.

Lemma strftime_date_le (t : Z) : strftime_date t ≤ t.
Proof.
  unfold strftime_date, day.
  pose proof (Z.div_mod t 86400 ltac:(lia)).
  pose proof (Z.mod_pos_bound t 86400 ltac:(lia)). lia.
Qed.

(** In a frame ordered by time every time stamp lies between the start of the
    date range and its end less the ten minutes added to it. *)
Lemma date_range_spans_rows (data : DataFrame) (date_range : Z * Z) (r : row) :
  Sorted Z.le (datetime <$> df_rows data) →
  _get_date_range data = OK date_range →
  r ∈ df_rows data →
  date_range.1 ≤ datetime r ≤ date_range.2 - timedelta64_m 10.
Proof.
  intros Hs Hdr [i Hi]%list_elem_of_lookup. unfold _get_date_range in Hdr.
  destruct (df_rows data) as [|first rows] eqn:Hrows; [done|].
  destruct (last (first :: rows)) as [final|] eqn:Hlast; [|done].
  injection Hdr as <-. cbn [fst snd].
  rewrite last_lookup in Hlast.
  assert (Hi' : (datetime <$> first :: rows) !! i = Some (datetime r))
    by (by rewrite list_lookup_fmap, Hi).
  assert (Hf : (datetime <$> first :: rows) !! 0%nat = Some (datetime first)) by done.
  assert (Hl : (datetime <$> first :: rows) !! pred (length (first :: rows))
               = Some (datetime final))
    by (by rewrite list_lookup_fmap, Hlast).
  pose proof (Sorted_lookup_le _ 0 i _ _ Hs ltac:(lia) Hf Hi').
  assert (i ≤ pred (length (first :: rows)))%nat
    by (apply lookup_lt_Some in Hi; lia).
  pose proof (Sorted_lookup_le _ i _ _ _ Hs ltac:(done) Hi' Hl). lia.
Qed.

(** X11. The ten minutes that [_get_date_range] adds are enough.  For a frame
    ordered by time, the window of the header query holds the time stamp of
    every sensor row, and it holds every header time that is not before the
    first day of the range and lies, moved by 17 minutes, at most 20 minutes
    from some sensor row; such a header time of an existing table is among
    the header times fetched.  Only header times before midnight of the first
    day can be missed. *)
Theorem header_window_reaches_matches (self : DatabaseUploader)
    (data : DataFrame) (date_range : Z * Z) (eng_table : string)
    (hdrtime_column : list Z) (r : row) (h : Z) :
  Sorted Z.le (datetime <$> df_rows data) →
  _get_date_range data = OK date_range →
  r ∈ df_rows data →
  Z.abs (datetime r - (h + timedelta64_m 17)) ≤ timedelta64_m 20 →
  strftime_date date_range.1 ≤ h →
  eng_tables (conn self) !! eng_table = Some hdrtime_column →
  h ∈ hdrtime_column →
  let q := generate_hdrtime_query eng_table date_range.1 date_range.2 in
  hq_start q ≤ datetime r ≤ hq_end q
  ∧ hq_start q ≤ h ≤ hq_end q
  ∧ ∃ hdrtimes, fetch_hdrtimes self q = OK hdrtimes ∧ h ∈ hdrtimes.
Proof.
  intros Hs Hdr Hr Hclose Hday Htable Hh. cbn zeta. cbn [hq_start hq_end generate_hdrtime_query].
  pose proof (date_range_spans_rows data date_range r Hs Hdr Hr) as Hspan.
  pose proof (strftime_minute_bounds date_range.2).
  pose proof (strftime_date_le date_range.1).
  unfold timedelta64_m, minute in *.
  assert (Hwin : strftime_date date_range.1 ≤ h ≤ strftime_minute date_range.2) by lia.
  split; [lia|]. split; [done|].
  unfold fetch_hdrtimes, generate_hdrtime_query.
  cbn [hq_table hq_start hq_end]. rewrite Htable.
  eexists. split; [done|].
  rewrite merge_sort_Permutation. by apply list_elem_of_filter.
Qed.

Lemma header_window_reaches_matches_witness :
  let q := generate_hdrtime_query "eng_0012_papa_19700101" 1020 1620 in
  hq_start q ≤ 1020 ≤ hq_end q
  ∧ hq_start q ≤ 60 ≤ hq_end q
  ∧ ∃ hdrtimes,
      fetch_hdrtimes {| conn := store_two_headers; testing := false |} q
      = OK hdrtimes ∧ 60 ∈ hdrtimes.
Proof.
  apply (header_window_reaches_matches
           {| conn := store_two_headers; testing := false |}
           frame_one_reading (1020, 1620) "eng_0012_papa_19700101" [0; 60]
           (Row 1020 (cells 5.5 0)) 60).
  - cbn. repeat constructor.
  - reflexivity.
  - by left.
  - by vm_compute.
  - by vm_compute.
  - reflexivity.
  - by right; left.
Defined.

(** X12. Every header time in reach is updated with its nearest valid
    reading.  Take a frame with a unique index and no zero time stamp, a
    parameter that is a column of the frame and a key of
    [parameter_mapping], and a header time of the table, inside the query
    window, that lies, moved by 17 minutes, at most 20 minutes from some row
    with a strictly positive value.  Then the unit of the table and the
    parameter ends normally and has executed an update with that header time
    as key and the value of a row with a strictly positive value that is at
    least as close to the moved header time as every such row. *)
Theorem header_in_reach_is_updated (self : DatabaseUploader) (data : DataFrame)
    (date_range : Z * Z) (eng_table p col : string) (hdrtime_column : list Z)
    (h : Z) (r : row) (log : list db_event) :
  p ∈ df_columns data →
  parameter_mapping !! p = Some col →
  NoDup (datetime <$> df_rows data) →
  (∀ r', r' ∈ df_rows data → datetime r' ≠ 0) →
  eng_tables (conn self) !! eng_table = Some hdrtime_column →
  h ∈ hdrtime_column →
  strftime_date date_range.1 ≤ h ≤ strftime_minute date_range.2 →
  r ∈ df_rows data →
  PrimFloat.ltb 0 (cell r p) = true →
  Z.abs (datetime r - (h + timedelta64_m 17)) ≤ timedelta64_m 20 →
  ∃ nearest updates,
    update_unit self data date_range eng_table p log
    = (OK tt, (log ++ updates) ++ [Commit])
    ∧ Execute (UpdateSql eng_table col) (cell nearest p) h ∈ updates
    ∧ nearest ∈ df_rows data
    ∧ PrimFloat.ltb 0 (cell nearest p) = true
    ∧ ∀ r', r' ∈ df_rows data → PrimFloat.ltb 0 (cell r' p) = true →
        Z.abs (datetime nearest - (h + timedelta64_m 17))
        ≤ Z.abs (datetime r' - (h + timedelta64_m 17)).
Proof.
  intros Hp Hcol Hnd Hnz Htable Hh Hwin Hr Hpos Hclose.
  set (sub_data := Frame (df_columns data)
                     (filter (λ r, PrimFloat.ltb 0 (cell r p) = true) (df_rows data))).
  assert (Hsub : positive_rows data p = OK sub_data)
    by (unfold positive_rows; by rewrite bool_decide_true).
  destruct (positive_rows_inv _ _ _ Hsub) as (_ & Hrows & _).
  set (times := datetime <$> df_rows sub_data).
  assert (Htimes : ∀ t, t ∈ times ↔
            ∃ r', t = datetime r' ∧ r' ∈ df_rows data
                  ∧ PrimFloat.ltb 0 (cell r' p) = true).
  { intros t. unfold times. rewrite list_elem_of_fmap. by setoid_rewrite Hrows. }
  assert (Hin : datetime r ∈ times) by (apply Htimes; by exists r).
  assert (Hne : times ≠ [])
    by (intros Hnil; rewrite Hnil in Hin; by apply elem_of_nil in Hin).
  set (entry := aligned_entry datetime64 times (Some (timedelta64_m 20))).
  set (hdrtimes := merge_sort Z.le
         (filter (λ t, strftime_date date_range.1 ≤ t ≤ strftime_minute date_range.2)
                 hdrtime_column)).
  set (aligned := (λ t, entry (t + timedelta64_m 17)) <$> hdrtimes).
  assert (Hha : _get_hdrtimes_and_aligned_times self eng_table date_range sub_data
                = OK (hdrtimes, aligned)).
  { unfold _get_hdrtimes_and_aligned_times, fetch_hdrtimes. cbn zeta.
    cbn [hq_table hq_start hq_end generate_hdrtime_query]. rewrite Htable.
    cbn [rbind]. rewrite align_arrays_entries by done. cbn [rbind elements_of].
    by rewrite <- list_fmap_compose. }
  assert (Hfetched : h ∈ hdrtimes).
  { unfold hdrtimes. rewrite merge_sort_Permutation. by apply list_elem_of_filter. }
  pose proof (aligned_entry_spec datetime64 times (Some (timedelta64_m 20))
                (h + timedelta64_m 17) Hne
                (λ x _, eq_refl)) as [Hnone Hsome].
  fold entry in Hnone, Hsome.
  destruct (entry (h + timedelta64_m 17)) as [t|] eqn:Hentry.
  2:{ pose proof (proj1 Hnone eq_refl _ Hin). lia. }
  destruct (Hsome t eq_refl) as (Ht & _ & Hmin).
  apply Htimes in Ht as (nearest & -> & Hnearest & Hnpos).
  assert (Hpair : (h, Some (datetime nearest)) ∈ zip hdrtimes aligned).
  { rewrite <- Hentry.
    by apply (elem_of_zip_fmap (λ t, entry (t + timedelta64_m 17))). }
  destruct (update_unit_log self data date_range eng_table p col sub_data
              hdrtimes aligned log Hsub Hha Hnd Hcol) as (updates & Hrun & Hupd).
  exists nearest, updates. split; [done|]. split; [|split; [done|split; [done|]]].
  - assert (Hfilt : (h, Some (datetime nearest))
                    ∈ filter (λ ha, truthy ha.2 = true) (zip hdrtimes aligned)).
    { apply list_elem_of_filter. split; [|done]. cbn.
      apply bool_decide_eq_true. by apply Hnz. }
    apply list_elem_of_lookup in Hfilt as [i Hi].
    destruct (Forall2_lookup_l _ _ _ _ _ Hupd Hi) as (ev & Hev & r' & Hr' & Hin' & ->).
    cbn in Hr'. injection Hr' as Hr'.
    assert (nearest = r') as <-.
    { apply (NoDup_fmap_elem_inj datetime (df_rows data)); [done..| |done].
      by apply Hrows. }
    by eapply list_elem_of_lookup_2.
  - intros r' Hr' Hpos'. apply Hmin, Htimes. by exists r'.
Qed.

Lemma header_in_reach_is_updated_witness :
  ∃ nearest updates,
    update_unit {| conn := store_two_headers; testing := false |}
      frame_one_reading (1020, 1620) "eng_0012_papa_19700101" "sst" []
    = (OK tt, ([] ++ updates) ++ [Commit])
    ∧ Execute (UpdateSql "eng_0012_papa_19700101" "sst") (cell nearest "sst") 60
      ∈ updates
    ∧ nearest ∈ df_rows frame_one_reading
    ∧ PrimFloat.ltb 0 (cell nearest "sst") = true
    ∧ ∀ r', r' ∈ df_rows frame_one_reading →
        PrimFloat.ltb 0 (cell r' "sst") = true →
        Z.abs (datetime nearest - (60 + timedelta64_m 17))
        ≤ Z.abs (datetime r' - (60 + timedelta64_m 17)).
Proof.
  apply (header_in_reach_is_updated
           {| conn := store_two_headers; testing := false |}
           frame_one_reading (1020, 1620) "eng_0012_papa_19700101" "sst" "sst"
           [0; 60] 60 (Row 1020 (cells 5.5 0)) []).
  - by left.
  - reflexivity.
  - cbn. apply NoDup_singleton.
  - intros r' Hr'. cbn in Hr'. apply list_elem_of_singleton in Hr' as ->. cbn. lia.
  - reflexivity.
  - by right; left.
  - by vm_compute.
  - by left.
  - reflexivity.
  - by vm_compute.
Defined.

(** ** Further properties of the helpers of generate_sql_query.py *)

(** The zero-padded system number of the table name, for every system number
    of at most four digits: four characters that read back as the number. *)
Lemma padded_system_numbers :
  forallb (λ n, let s := str_mul "0" (4 - Z.of_nat (String.length (str n))) +:+ str n in
                (String.length s =? 4)%nat && (read_decimal s =? n))
          (seqZ 0 10000) = true.
Proof. vm_compute. reflexivity. Qed.

Lemma padded_system_number (n : Z) :
  0 ≤ n < 10000 →
  let s := str_mul "0" (4 - Z.of_nat (String.length (str n))) +:+ str n in
  String.length s = 4%nat ∧ read_decimal s = n.
Proof.
  intros Hn. cbn zeta.
  pose proof (proj1 (forallb_forall _ _) padded_system_numbers n) as Hcheck.
  cbn beta zeta in Hcheck.
  assert (Hin : In n (seqZ 0 10000)) by (apply list_elem_of_In, elem_of_seqZ; lia).
  apply Hcheck, andb_prop in Hin as [Hlen Hread].
  apply Nat.eqb_eq in Hlen. apply Z.eqb_eq in Hread. done.
Qed.

Lemma system_field_of_name (s rest : string) :
  String.length s = 4%nat → system_field ("eng_" +:+ s +:+ rest) = s.
Proof.
  destruct s as [|a [|b [|c [|e [|f s]]]]]; try done. intros _.
  unfold system_field. cbn. by destruct rest.
Qed.

Lemma lower_char_idemp (c : Ascii.ascii) :
  lower_char (lower_char c) = lower_char c.
Proof. by destruct c as [[] [] [] [] [] [] [] []]. Qed.

Lemma lower_idemp (s : string) : lower (lower s) = lower s.
Proof. induction s as [|c s IH]; [done|]. cbn. by rewrite lower_char_idemp, IH. Qed.



(** X14. The two name mappings agree with each other and with the update
    statement.  Every entry of [inverse_parameter_mapping] is undone by
    [parameter_mapping]; and every name that [parameter_mapping] yields is a
    key of [inverse_parameter_mapping] and a column for which
    [generate_update_sql] builds a statement, so its assertion cannot fail
    inside [update_table]. *)
Theorem parameter_mappings_agree :
  (∀ c external,
     inverse_parameter_mapping !! c = Some external →
     parameter_mapping !! external = Some c)
  ∧ (∀ p c eng_table,
       parameter_mapping !! p = Some c →
       is_Some (inverse_parameter_mapping !! c)
       ∧ generate_update_sql eng_table c = OK (UpdateSql eng_table c)).
Proof.
  split.
  - intros c external Hinv. unfold inverse_parameter_mapping in Hinv.
    apply lookup_insert_Some in Hinv as [[<- <-]|[_ Hinv]]; [done|].
    by apply lookup_singleton_Some in Hinv as [<- <-].
  - intros p c eng_table Hmap. split.
    + destruct (parameter_mapping_columns p c Hmap) as [->| ->]; by eexists.
    + unfold generate_update_sql.
      by rewrite bool_decide_true by (by apply (parameter_mapping_columns p)).
Qed.

Lemma parameter_mappings_agree_witness :
  parameter_mapping !! "sss" = Some "sal"
  ∧ is_Some (inverse_parameter_mapping !! "sal")
  ∧ generate_update_sql "eng_0012_papa_19700101" "sal"
    = OK (UpdateSql "eng_0012_papa_19700101" "sal").
Proof.
  destruct parameter_mappings_agree as [Hback Hforth].
  split; [by apply Hback|]. by apply (Hforth "sss").
Defined.

(** What [run_update_sql] has executed is, in order, statements for the
    first positions that both lists have. *)
Lemma run_update_sql_prefix (cursor : Database) (stmt : sql_update)
    (dtimes : list Z) (param_data : list float) (log : list db_event) :
  ∃ k : nat,
    (run_update_sql cursor stmt dtimes param_data log).2
    = log ++ ((λ dv, Execute stmt dv.2 dv.1) <$> take k (zip dtimes param_data))
    ∧ ((run_update_sql cursor stmt dtimes param_data log).1 = OK tt →
       (length (zip dtimes param_data) ≤ k)%nat).
Proof.
  unfold run_update_sql. generalize (zip dtimes param_data) as l.
  intros l. destruct (decide (is_Some (eng_tables cursor !! upd_table stmt)))
    as [Htable|Htable].
  - exists (length l). rewrite firstn_all.
    rewrite (for_each_ext _ (λ dv, emit (Execute stmt dv.2 dv.1))).
    + by rewrite for_each_emit.
    + intros [d v]. unfold execute. by rewrite bool_decide_true.
  - exists 0%nat. destruct l as [|[d v] l]; cbn.
    + by rewrite app_nil_r.
    + unfold io_bind, execute, lift. rewrite bool_decide_false by done. cbn.
      by rewrite app_nil_r.
Qed.

(** X15. [run_update_sql] never commits, and what it executes, whatever its
    outcome, is in order one statement for each of the first positions that
    both lists have, pairing the time and the value of that position.  When
    it returns, it has executed a statement for every position that both
    lists have, and has passed over in silence what the longer list has
    beyond the shorter.  On a table that does not exist it raises
    [UndefinedTable] at the first pair, if there is one, with nothing
    executed. *)
Theorem run_update_sql_pairs_positions (cursor : Database)
    (sql_update_str : sql_update) (dtimes : list Z) (param_data : list float)
    (log : list db_event) :
  ∃ new,
    (run_update_sql cursor sql_update_str dtimes param_data log).2 = log ++ new
    ∧ commits new = 0%nat
    ∧ (∀ (i : nat) ev,
         new !! i = Some ev →
         ∃ dtime value,
           dtimes !! i = Some dtime ∧ param_data !! i = Some value
           ∧ ev = Execute sql_update_str value dtime)
    ∧ ((run_update_sql cursor sql_update_str dtimes param_data log).1 = OK tt →
       length new = (length dtimes `min` length param_data)%nat)
    ∧ (eng_tables cursor !! upd_table sql_update_str = None →
       dtimes ≠ [] → param_data ≠ [] →
       run_update_sql cursor sql_update_str dtimes param_data log
       = (Raise (UndefinedTable (upd_table sql_update_str)), log)).
Proof.
  destruct (run_update_sql_prefix cursor sql_update_str dtimes param_data log)
    as (k & Hlog & Hall).
  eexists. split; [exact Hlog|]. split; [|split; [|split]].
  - unfold commits. rewrite filter_none; [done|].
    by intros ev (dv & -> & _)%list_elem_of_fmap.
  - intros i ev Hi.
    apply list_lookup_fmap_Some in Hi as ([dtime value] & -> & Hi).
    apply lookup_take_Some in Hi as [Hi _].
    apply lookup_zip_with_Some in Hi as (d & v & [= -> ->] & Hd & Hv).
    by exists d, v.
  - intros Hok. specialize (Hall Hok).
    rewrite length_fmap, take_ge by done. by rewrite length_zip_with.
  - intros Hnone Hd Hv. unfold run_update_sql.
    destruct dtimes as [|d dtimes]; [done|].
    destruct param_data as [|v param_data]; [done|]. cbn.
    unfold io_bind, execute, lift. rewrite bool_decide_false; [done|].
    rewrite Hnone. by intros [? [=]].
Qed.

Lemma run_update_sql_pairs_positions_witness :
  let stmt := UpdateSql "eng_0012_papa_19700101" "sst" in
  (∃ new,
     (run_update_sql store_two_headers stmt [0; 60; 120] [5.5%float; 6%float] []).2
     = [] ++ new
     ∧ length new = (length [0; 60; 120] `min` length [5.5%float; 6%float])%nat)
  ∧ run_update_sql store_no_tables stmt [0; 60; 120] [5.5%float; 6%float] []
    = (Raise (UndefinedTable "eng_0012_papa_19700101"), []).
Proof.
  cbn zeta. split.
  - destruct (run_update_sql_pairs_positions store_two_headers
                (UpdateSql "eng_0012_papa_19700101" "sst") [0; 60; 120]
                [5.5%float; 6%float] []) as (new & Hlog & _ & _ & Hlen & _).
    exists new. split; [exact Hlog|]. apply Hlen. reflexivity.
  - destruct (run_update_sql_pairs_positions store_no_tables
                (UpdateSql "eng_0012_papa_19700101" "sst") [0; 60; 120]
                [5.5%float; 6%float] []) as (_ & _ & _ & _ & _ & Hraise).
    apply Hraise; [reflexivity|done..].
Defined.
